(** * rockx-dkg-cli: the resharing command and the messenger client

    A shallow embedding of

      - internal/cli/handle_resharing.go  (HandleResharing, sendReshareMsg,
        parseResharingRequest, nodeAddress, newOperators, oldOperators,
        initMsgForResharing)
      - internal/messenger/client.go      (NewMessengerClient, CreateTopic,
        RegisterOperatorNode)

    Go values are modelled as follows.
      - [string] and [[]byte] are Rocq strings (sequences of 8-bit characters).
      - [int] is a [Z] in the 64-bit signed range, [types.OperatorID]
        (a [uint64]) a [Z] in [0, 2^64); conversions write the wrap-around out.
      - [map[types.OperatorID]string] is a [gmap Z string].
      - an [error] result is an [option error], [None] being [nil].
      - HTTP traffic, standard output and the log are fields of a [World]
        threaded through an [IO] monad whose computations may also panic. *)

From Stdlib Require Import ZArith Ascii String.
From stdpp Require Import gmap strings list fin_maps pretty.

Open Scope string_scope.
Open Scope Z_scope.

(** ** Errors *)

Inductive NumErrKind := ErrSyntax | ErrRange.

(** Error values made by Go's standard library. *)
Inductive LibErr :=
  | NumError (Func Num : string) (Err : NumErrKind)   (* *strconv.NumError *)
  | InvalidByteError (b : ascii)                      (* hex.InvalidByteError *)
  | ErrLength.                                        (* hex.ErrLength *)

Inductive error :=
  | errorString (s : string)              (* fmt.Errorf without %w *)
  | wrapError (msg : string) (err : error) (* fmt.Errorf(msg ++ ": %w", err) *)
  | libError (e : LibErr)
  | foreignError (s : string).            (* made outside this code: net/http, ssv-spec *)

(** ** Go's standard library *)

Module Go.

Definition byte_val (c : ascii) : Z := Z.of_N (N_of_ascii c).

Definition ascii_eqb (a b : ascii) : bool := bool_decide (a = b).

(** strings.Trim(s, cutset), for a cutset of ASCII characters. *)
Fixpoint in_cutset (c : ascii) (cutset : string) : bool :=
  match cutset with
  | EmptyString => false
  | String d rest => ascii_eqb c d || in_cutset c rest
  end.

Fixpoint trim_left (l : list ascii) (cutset : string) : list ascii :=
  match l with
  | c :: l' => if in_cutset c cutset then trim_left l' cutset else l
  | [] => []
  end.

Definition strings_Trim (s cutset : string) : string :=
  let l := trim_left (list_ascii_of_string s) cutset in
  string_of_list_ascii (rev (trim_left (rev l) cutset)).

(** strings.Split(s, sep) for a separator of one byte: the pieces between
    the occurrences of [sep], one more than there are occurrences. *)
Fixpoint strings_Split (s : string) (sep : ascii) : list string :=
  match s with
  | EmptyString => [EmptyString]
  | String c s' =>
      if ascii_eqb c sep then EmptyString :: strings_Split s' sep
      else match strings_Split s' sep with
           | p :: ps => String c p :: ps
           | [] => [String c EmptyString]
           end
  end.

(** strconv.Atoi: an optional sign, then one or more decimal digits; the
    value must fit a 64-bit int. *)
Definition is_digit (c : ascii) : bool :=
  (48 <=? byte_val c) && (byte_val c <=? 57).

(** The number a run of decimal digits denotes, after [acc]. *)
Fixpoint digits_value (acc : Z) (s : string) : option Z :=
  match s with
  | EmptyString => Some acc
  | String c s' =>
      if is_digit c then digits_value (acc * 10 + (byte_val c - 48)) s'
      else None
  end.

(** The loop of ParseUint over the digits, from the left: a character that
    is not a digit is a syntax error, a value that no longer fits a uint64
    is a range error, and the first of the two to be met ends the scan. *)
Inductive Scan := Scanned (un : Z) | ScanSyntax | ScanRange.

Fixpoint scan_digits (acc : Z) (s : string) : Scan :=
  match s with
  | EmptyString => Scanned acc
  | String c s' =>
      if is_digit c then
        let n1 := acc * 10 + (byte_val c - 48) in
        if 2 ^ 64 <=? n1 then ScanRange else scan_digits n1 s'
      else ScanSyntax
  end.

Definition strconv_Atoi (s : string) : Z * option error :=
  let syntaxError := (0, Some (libError (NumError "Atoi" s ErrSyntax))) in
  let '(neg, body) :=
    match s with
    | String "-" r => (true, r)
    | String "+" r => (false, r)
    | _ => (false, s)
    end in
  match body with
  | EmptyString => syntaxError
  | _ =>
      match scan_digits 0 body with
      | ScanSyntax => syntaxError
      | ScanRange =>
          (if neg then - 2 ^ 63 else 2 ^ 63 - 1,
           Some (libError (NumError "Atoi" s ErrRange)))
      | Scanned un =>
          if negb neg && (2 ^ 63 <=? un) then
            (2 ^ 63 - 1, Some (libError (NumError "Atoi" s ErrRange)))
          else if neg && (2 ^ 63 <? un) then
            (- 2 ^ 63, Some (libError (NumError "Atoi" s ErrRange)))
          else (if neg then - un else un, None)
      end
  end.

(** strconv.Itoa and the %d verb. *)
Definition strconv_Itoa (n : Z) : string := pretty n.

(** Conversions between int and uint64. *)
Definition uint64_of_int (n : Z) : Z := n mod 2 ^ 64.
Definition int_of_uint64 (n : Z) : Z := if n <? 2 ^ 63 then n else n - 2 ^ 64.
Definition uint16_of_int (n : Z) : Z := n mod 2 ^ 16.

(** encoding/hex *)
Definition fromHexChar (c : ascii) : option Z :=
  let v := byte_val c in
  if (48 <=? v) && (v <=? 57) then Some (v - 48)
  else if (97 <=? v) && (v <=? 102) then Some (v - 97 + 10)
  else if (65 <=? v) && (v <=? 70) then Some (v - 65 + 10)
  else None.

Definition byte_of_Z (v : Z) : ascii := ascii_of_N (Z.to_N v).

(** hex.Decode walks the source two characters at a time; the bytes decoded
    before an error are returned with it. *)
Fixpoint hex_Decode (src : string) : string * option error :=
  match src with
  | EmptyString => (EmptyString, None)
  | String p EmptyString =>
      match fromHexChar p with
      | None => (EmptyString, Some (libError (InvalidByteError p)))
      | Some _ => (EmptyString, Some (libError ErrLength))
      end
  | String p (String q rest) =>
      match fromHexChar p, fromHexChar q with
      | None, _ => (EmptyString, Some (libError (InvalidByteError p)))
      | Some _, None => (EmptyString, Some (libError (InvalidByteError q)))
      | Some a, Some b =>
          let '(out, err) := hex_Decode rest in
          (String (byte_of_Z (a * 16 + b)) out, err)
      end
  end.

Definition hex_DecodeString (s : string) : string * option error := hex_Decode s.

Definition hexdigit (v : Z) : ascii :=
  if v <? 10 then byte_of_Z (48 + v) else byte_of_Z (97 + (v - 10)).

Fixpoint hex_EncodeToString (src : string) : string :=
  match src with
  | EmptyString => EmptyString
  | String c rest =>
      String (hexdigit (byte_val c / 16))
        (String (hexdigit (byte_val c mod 16)) (hex_EncodeToString rest))
  end.

Definition StatusOK : Z := 200.

Definition LF : string := String (ascii_of_nat 10) EmptyString.

End Go.

(** ** Data of the two packages and of ssv-spec *)

(** messenger.Client: the server address; its http.Client is [messengerClient]. *)
Record Client := { SrvAddr : string }.

Record Subscriber := { Name : string; Subscriber_SrvAddr : string }.

Record TopicJSON := { TopicName : string; Subscribers : list string }.

Record ResharingRequest := {
  Operators : gmap Z string;
  Threshold : Z;
  ValidatorPK : string;
  OperatorsOld : gmap Z string
}.

(** The flags of the command as urfave/cli hands them over:
    c.Int("threshold"), c.String("validator-pk"), c.StringSlice("operator"),
    c.StringSlice("old-operator"). *)
Record Context := {
  flag_threshold : Z;
  flag_validator_pk : string;
  flag_operator : list string;
  flag_old_operator : list string
}.

(** dkg.Reshare as testingutils.ReshareMessageData fills it. *)
Record Reshare := {
  Reshare_ValidatorPK : string;
  Reshare_OperatorIDs : list Z;
  Reshare_Threshold : Z;
  Reshare_OldOperatorIDs : list Z
}.

Inductive dkg_MsgType := ReshareMsgType.
Inductive ssv_MsgType := DKGMsgType.

Record Message := {
  Message_MsgType : dkg_MsgType;
  Identifier : string;
  Message_Data : string
}.

Record SignedMessage := {
  SignedMessage_Message : Message;
  Signer : Z;
  Signature : string
}.

Record SSVMessage := { SSV_MsgType : ssv_MsgType; SSV_Data : string }.

(** ** The world outside *)

(** The two http.Client values of the program: the one of the CliHandler
    and the one NewMessengerClient builds. *)
Inductive HttpClient := handlerClient | messengerClient.

#[global] Instance HttpClient_eq_dec : EqDecision HttpClient.
Proof. solve_decision. Defined.

Record Request := {
  via : HttpClient;
  url : string;
  contentType : string;
  body : string
}.

Inductive HttpResult :=
  | HttpFail (err : error)       (* no response: transport error *)
  | HttpResponse (status : Z).

Record Response := { StatusCode : Z }.

Record World := {
  sent : list Request;     (* requests posted so far, oldest first *)
  stdout : list string;
  logged : list string
}.

Definition world0 : World := {| sent := []; stdout := []; logged := [] |}.

(** What the program does not define itself.  The order in which [range]
    walks a map is not specified by Go and may change from one walk to the
    next, also over the same map: [map_range n] is the order of the n-th
    walk of a run, any enumeration of the keys (see [range_ok]). *)
Record Env := {
  map_range : nat → gmap Z string → list Z;
  lib_error_text : LibErr → string;
  http : list Request → Request → HttpResult;
  (* of this repository, declared in other files *)
  getRandRequestID : string;
  MessengerAddrFromEnv : string;
  DefaultTopic : string;
  json_Marshal_TopicJSON : TopicJSON → string;
  json_Marshal_Subscriber : Subscriber → string;
  (* ssv-spec *)
  Reshare_Encode : Reshare → string * option error;
  sign_with_operator1_key : Message → string;
  SignedMessage_Encode : SignedMessage → string * option error;
  SSVMessage_Encode : SSVMessage → string * option error
}.

Definition range_ok (E : Env) : Prop :=
  ∀ (walk : nat) (m : gmap Z string), map_range E walk m ≡ₚ (map_to_list m).*1.

(** ** Computations: a state monad over the world, with panics *)

Inductive Res (A : Type) :=
  | Val (a : A)
  | Panic (msg : string).
Arguments Val {A} a.
Arguments Panic {A} msg.

Definition IO (A : Type) : Type := World → Res A * World.

#[global] Instance IO_ret : MRet IO := λ A a w, (Val a, w).

#[global] Instance IO_bind : MBind IO := λ A B k m w,
  match m w with
  | (Val a, w') => k a w'
  | (Panic msg, w') => (Panic msg, w')
  end.

Definition panic {A} (msg : string) : IO A := λ w, (Panic msg, w).

Definition nil_dereference : string :=
  "runtime error: invalid memory address or nil pointer dereference".

Definition fmt_Printf (s : string) : IO unit := λ w,
  (Val tt, {| sent := sent w; stdout := (stdout w ++ [s])%list; logged := logged w |}).

Definition log_Printf (s : string) : IO unit := λ w,
  (Val tt, {| sent := sent w; stdout := stdout w; logged := (logged w ++ [s])%list |}).

Section Program.

Context (E : Env).

(** The Error method of an error value. *)
Fixpoint Error (e : error) : string :=
  match e with
  | errorString s => s
  | wrapError msg err => msg +:+ ": " +:+ Error err
  | libError l => lib_error_text E l
  | foreignError s => s
  end.

(** [err.Error()] on a variable that may hold nil. *)
Definition call_Error (err : option error) : IO string :=
  match err with
  | Some e => mret (Error e)
  | None => panic nil_dereference
  end.

(** [resp.StatusCode] on a response pointer that may be nil. *)
Definition get_StatusCode (resp : option Response) : IO Z :=
  match resp with
  | Some r => mret (StatusCode r)
  | None => panic nil_dereference
  end.

(** The %+v verb on a slice of errors. *)
Definition fmt_errors (errors : list error) : string :=
  "[" +:+ String.concat " " (Error <$> errors) +:+ "]".

(** client.Post(url, contentType, body): the request is recorded and the
    world answers; Go returns the pair (resp, err), one of them nil. *)
Definition Post (cl : HttpClient) (u ct data : string)
  : IO (option Response * option error) := λ w,
  let rq := {| via := cl; url := u; contentType := ct; body := data |} in
  let w' := {| sent := (sent w ++ [rq])%list; stdout := stdout w; logged := logged w |} in
  match http E (sent w) rq with
  | HttpFail err => (Val (None, Some err), w')
  | HttpResponse code => (Val (Some {| StatusCode := code |}, None), w')
  end.

(** *** internal/messenger/client.go *)

Definition NewMessengerClient (srvAddr : string) : Client :=
  let srvAddr :=
    if decide (srvAddr = EmptyString) then "https://dkg-messenger.rockx.com"
    else srvAddr in
  {| SrvAddr := srvAddr |}.

(** The body of the retry loop of RegisterOperatorNode, [n] iterations
    before [try] exceeds [numtries]; it returns [try] and [errors] as they
    are when the loop is left. *)
Fixpoint register_loop (cl : Client) (id addr : string)
    (n : nat) (try : Z) (errors : list error) : IO (Z * list error) :=
  match n with
  | O => mret (try, errors)
  | S n' =>
      let sub := {| Name := id; Subscriber_SrvAddr := addr |} in
      let byts := json_Marshal_Subscriber E sub in
      let u := SrvAddr cl +:+ "/register_node?subscribes_to=" +:+ DefaultTopic E in
      '(resp, err) ← Post messengerClient u "application/json" byts;
      match err with
      | Some e =>
          let err := errorString ("failed to make request to messenger: " +:+ Error e) in
          log_Printf ("Error: " +:+ Error err +:+ Go.LF) ≫= λ _,
          register_loop cl id addr n' (try + 1) (errors ++ [err])%list
      | None =>
          code ← get_StatusCode resp;
          if decide (code ≠ Go.StatusOK) then
            (* the right-hand side still sees the [err] of the Post *)
            msg ← call_Error err;
            let err := errorString
              ("failed to register operator of ID " +:+ Name sub
               +:+ " with the messenger on " +:+ Go.strconv_Itoa try
               +:+ " try: " +:+ msg) in
            log_Printf ("Error: " +:+ Error err +:+ Go.LF) ≫= λ _,
            register_loop cl id addr n' (try + 1) (errors ++ [err])%list
          else mret (try, errors)
      end
  end.

Definition RegisterOperatorNode (cl : Client) (id addr : string) : IO (option error) :=
  let numtries := 3 in
  let try := 1 in
  '(try, errors) ← register_loop cl id addr (Z.to_nat (numtries - try + 1)) try [];
  if decide (try > numtries) then
    mret (Some (errorString
      ("failed to register this node even after " +:+ Go.strconv_Itoa numtries
       +:+ " tries with errors " +:+ fmt_errors errors)))
  else mret None.

(** The topic CreateTopic builds before it marshals it. *)
Definition make_topic (requestID : string) (l : list Z) : TopicJSON :=
  let subscribers :=
    foldl (λ (subs : list string) operatorID,
             (subs ++ [Go.strconv_Itoa (Go.int_of_uint64 operatorID)])%list) [] l in
  {| TopicName := requestID; Subscribers := subscribers |}.

Definition CreateTopic (cl : Client) (requestID : string) (l : list Z)
  : IO (option error) :=
  let topic := make_topic requestID l in
  let data := json_Marshal_TopicJSON E topic in
  '(resp, err) ← Post messengerClient (SrvAddr cl +:+ "/topics") "application/json" data;
  match err with
  | Some e => mret (Some e)
  | None =>
      code ← get_StatusCode resp;
      if decide (code ≠ Go.StatusOK) then
        mret (Some (errorString "failed to call createTopic on messenger"))
      else mret None
  end.

(** *** internal/cli/handle_resharing.go *)

Definition sendReshareMsg (operatorID : Z) (addr data : string) : IO (option error) :=
  let u := addr +:+ "/consume" in
  '(resp, err) ← Post handlerClient u "application/json" data;
  match err with
  | Some e => mret (Some e)
  | None =>
      code ← get_StatusCode resp;
      if decide (code ≠ Go.StatusOK) then
        mret (Some (errorString
          ("failed to send reshare message with code " +:+ Go.strconv_Itoa code
           +:+ " to operator " +:+ Go.strconv_Itoa operatorID)))
      else mret None
  end.

(** One of the two loops of parseResharingRequest: it fills the map it is
    given and stops at the first token it rejects. *)
Fixpoint parse_operators (kv : list string) (m : gmap Z string)
  : gmap Z string * option error :=
  match kv with
  | [] => (m, None)
  | op :: rest =>
      let op := Go.strings_Trim op " " in
      let pair := Go.strings_Split op "=" in
      match pair with
      | [p0; p1] =>
          let '(opID, err) := Go.strconv_Atoi p0 in
          match err with
          | Some e => (m, Some e)
          | None => parse_operators rest (<[Go.uint64_of_int opID := p1]> m)
          end
      | _ =>
          (m, Some (errorString
                 ("operator " +:+ op +:+ " is not in the form of key=value")))
      end
  end.

Definition parseResharingRequest (c : Context) : ResharingRequest * option error :=
  let '(ops, err) := parse_operators (flag_operator c) ∅ in
  match err with
  | Some e =>
      ({| Operators := ops; Threshold := flag_threshold c;
          ValidatorPK := flag_validator_pk c; OperatorsOld := ∅ |}, Some e)
  | None =>
      let '(old, err) := parse_operators (flag_old_operator c) ∅ in
      ({| Operators := ops; Threshold := flag_threshold c;
          ValidatorPK := flag_validator_pk c; OperatorsOld := old |}, err)
  end.

Definition nodeAddress (request : ResharingRequest) (operatorID : Z) : string :=
  match Operators request !! operatorID with
  | Some _ => default EmptyString (Operators request !! operatorID)
  | None => default EmptyString (OperatorsOld request !! operatorID)
  end.

(** newOperators and oldOperators are called twice in a run; [walk] says
    which walk of the run the call makes. *)
Definition newOperators (walk : nat) (request : ResharingRequest) : list Z :=
  foldl (λ (operators : list Z) operatorID, (operators ++ [operatorID])%list) []
        (map_range E walk (Operators request)).

Definition oldOperators (walk : nat) (request : ResharingRequest) : list Z :=
  foldl (λ (operatorsOld : list Z) operatorID, (operatorsOld ++ [operatorID])%list) []
        (map_range E walk (OperatorsOld request)).

Definition ReshareMessageData (operators : list Z) (threshold : Z)
    (validatorPK : string) (oldOperators : list Z) : Reshare :=
  {| Reshare_ValidatorPK := validatorPK; Reshare_OperatorIDs := operators;
     Reshare_Threshold := threshold; Reshare_OldOperatorIDs := oldOperators |}.

(** testingutils.SignDKGMsg with the key of operator 1 of the testing key set. *)
Definition SignDKGMsg (id : Z) (msg : Message) : SignedMessage :=
  {| SignedMessage_Message := msg; Signer := id;
     Signature := sign_with_operator1_key E msg |}.

Definition initMsgForResharing (request : ResharingRequest) (requestID : string)
  : string * option error :=
  let '(vk, err) := Go.hex_DecodeString (ValidatorPK request) in
  match err with
  | Some e => (EmptyString, Some e)
  | None =>
      let reshare := ReshareMessageData (newOperators 2 request)
                       (Go.uint16_of_int (Threshold request)) vk
                       (oldOperators 3 request) in
      let '(reshareBytes, _) := Reshare_Encode E reshare in
      let reshareMsg := SignDKGMsg 1
            {| Message_MsgType := ReshareMsgType; Identifier := requestID;
               Message_Data := reshareBytes |} in
      let '(byts, _) := SignedMessage_Encode E reshareMsg in
      let msg := {| SSV_MsgType := DKGMsgType; SSV_Data := byts |} in
      SSVMessage_Encode E msg
  end.

(** The delivery loop of HandleResharing: it returns at the first error. *)
Fixpoint deliver (request : ResharingRequest) (initMsgBytes : string)
    (alloperators : list Z) : IO (option error) :=
  match alloperators with
  | [] => mret None
  | operatorID :: rest =>
      let addr := nodeAddress request operatorID in
      err ← sendReshareMsg operatorID addr initMsgBytes;
      match err with
      | Some e => mret (Some e)
      | None => deliver request initMsgBytes rest
      end
  end.

Definition HandleResharing (c : Context) : IO (option error) :=
  let '(resharingRequest, err) := parseResharingRequest c in
  match err with
  | Some e =>
      mret (Some (wrapError "HandleResharing: failed to parse resharing request" e))
  | None =>
      let requestID := getRandRequestID E in
      let requestIDInHex := Go.hex_EncodeToString requestID in
      let operators := newOperators 0 resharingRequest in
      let operatorsOld := oldOperators 1 resharingRequest in
      let alloperators := (operators ++ operatorsOld)%list in
      let messengerClient := NewMessengerClient (MessengerAddrFromEnv E) in
      err ← CreateTopic messengerClient requestIDInHex alloperators;
      match err with
      | Some e =>
          mret (Some (wrapError
            "HandleResharing: failed to createa new topic on messenger service" e))
      | None =>
          let '(initMsgBytes, err) := initMsgForResharing resharingRequest requestID in
          match err with
          | Some e =>
              mret (Some (wrapError
                "HandleResharing: failed to generate init message for keygen" e))
          | None =>
              err ← deliver resharingRequest initMsgBytes alloperators;
              match err with
              | Some e => mret (Some e)
              | None =>
                  fmt_Printf ("resharing init request sent with ID: "
                              +:+ requestIDInHex +:+ Go.LF) ≫= λ _,
                  mret None
              end
          end
      end
  end.

End Program.

(** ** A stub world, for running the program on concrete inputs *)

Module Stub.

Definition always (r : HttpResult) : list Request → Request → HttpResult :=
  λ _ _, r.

(** Answers by destination: status 200 except for the URLs listed. *)
Definition failing_at (bad : list string) (r : HttpResult)
  : list Request → Request → HttpResult :=
  λ _ rq, if bool_decide (url rq ∈ bad) then r else HttpResponse 200.

(** Answers by position: the k-th request (from 0) gets the k-th answer of
    the script, later ones status 200. *)
Definition scripted (script : list HttpResult)
  : list Request → Request → HttpResult :=
  λ history _, default (HttpResponse 200) (script !! length history).

Definition lib_text (l : LibErr) : string :=
  match l with
  | NumError f n ErrSyntax => "strconv." +:+ f +:+ ": parsing " +:+ n +:+ ": invalid syntax"
  | NumError f n ErrRange => "strconv." +:+ f +:+ ": parsing " +:+ n +:+ ": value out of range"
  | InvalidByteError b => "encoding/hex: invalid byte: " +:+ String b EmptyString
  | ErrLength => "encoding/hex: odd length hex string"
  end.

Definition ok_encoder {A} (tag : string) (f : A → string) : A → string * option error :=
  λ a, (tag +:+ f a, None).

Definition failing_encoder {A} (msg : string) : A → string * option error :=
  λ _, (EmptyString, Some (foreignError msg)).

(** The walks of a stub run: the first two in the order of the list of the
    map, the later ones in the reverse order. *)
Definition walk_order (walk : nat) (m : gmap Z string) : list Z :=
  if (walk <? 2)%nat then (map_to_list m).*1 else reverse (map_to_list m).*1.

Definition env (net : list Request → Request → HttpResult) : Env :=
  {| map_range := walk_order;
     lib_error_text := lib_text;
     http := net;
     getRandRequestID := "0123456789abcdef01234567";
     MessengerAddrFromEnv := "http://messenger";
     DefaultTopic := "default";
     json_Marshal_TopicJSON := λ t, TopicName t +:+ ":" +:+ String.concat "," (Subscribers t);
     json_Marshal_Subscriber := λ s, Name s +:+ "@" +:+ Subscriber_SrvAddr s;
     Reshare_Encode := ok_encoder "reshare:" Reshare_ValidatorPK;
     sign_with_operator1_key := λ _, "sig";
     SignedMessage_Encode := ok_encoder "signed:" (λ m, Message_Data (SignedMessage_Message m));
     SSVMessage_Encode := ok_encoder "ssv:" SSV_Data |}.

(** The scenario of the specification. *)
Definition scenario : Context :=
  {| flag_threshold := 2; flag_validator_pk := "ab12";
     flag_operator := ["1=http://a"; "2=http://b"];
     flag_old_operator := ["1=http://a"; "3=http://c"] |}.

(** A request whose maps share the id 1. *)
Definition both_maps : ResharingRequest :=
  {| Operators := <[1 := "http://new"]> ∅; Threshold := 1; ValidatorPK := "ab12";
     OperatorsOld := <[1 := "http://old"]> (<[3 := "http://c"]> ∅) |}.

(** The request parsed from [scenario]. *)
Definition session : ResharingRequest :=
  {| Operators := <[1 := "http://a"]> (<[2 := "http://b"]> ∅); Threshold := 2;
     ValidatorPK := "ab12";
     OperatorsOld := <[1 := "http://a"]> (<[3 := "http://c"]> ∅) |}.

(** Two new operators and no old one. *)
Definition two_operators : Context :=
  {| flag_threshold := 2; flag_validator_pk := "ab12";
     flag_operator := ["1=http://a"; "2=http://b"]; flag_old_operator := [] |}.

Definition two_session : ResharingRequest :=
  {| Operators := <[1 := "http://a"]> (<[2 := "http://b"]> ∅); Threshold := 2;
     ValidatorPK := "ab12"; OperatorsOld := ∅ |}.

(** Every server answers 200. *)
Definition all_up : Env := env (always (HttpResponse 200)).

(** No server can be reached. *)
Definition all_down : Env := env (always (HttpFail (foreignError "connection refused"))).

(** The operator at http://b answers 500, every other server 200. *)
Definition b_down : Env := env (failing_at ["http://b/consume"] (HttpResponse 500)).

(** The payload the stub encoders compose for key ab12. *)
Definition payload : string :=
  (initMsgForResharing all_up session (getRandRequestID all_up)).1.

(** The scenario with a validator key that is not hexadecimal. *)
Definition bad_key : Context :=
  {| flag_threshold := 2; flag_validator_pk := "zz";
     flag_operator := ["1=http://a"; "2=http://b"];
     flag_old_operator := ["1=http://a"; "3=http://c"] |}.

Definition bad_key_session : ResharingRequest :=
  {| Operators := <[1 := "http://a"]> (<[2 := "http://b"]> ∅); Threshold := 2;
     ValidatorPK := "zz";
     OperatorsOld := <[1 := "http://a"]> (<[3 := "http://c"]> ∅) |}.

(** A new operator given with a negative id. *)
Definition negative_id : Context :=
  {| flag_threshold := 1; flag_validator_pk := "ab12";
     flag_operator := ["-1=http://a"]; flag_old_operator := [] |}.

(** A second new operator given without an address. *)
Definition no_address : Context :=
  {| flag_threshold := 1; flag_validator_pk := "ab12";
     flag_operator := ["1=http://a"; " 2 "]; flag_old_operator := ["x=http://c"] |}.

(** Every server answers 200; the encoders of the reshare parameters and of
    the signed envelope fail, the encoder of the transport envelope works. *)
Definition inner_encoders_fail : Env :=
  {| map_range := walk_order;
     lib_error_text := lib_text;
     http := always (HttpResponse 200);
     getRandRequestID := "0123456789abcdef01234567";
     MessengerAddrFromEnv := "http://messenger";
     DefaultTopic := "default";
     json_Marshal_TopicJSON := λ t, TopicName t +:+ ":" +:+ String.concat "," (Subscribers t);
     json_Marshal_Subscriber := λ s, Name s +:+ "@" +:+ Subscriber_SrvAddr s;
     Reshare_Encode := failing_encoder "cannot encode reshare";
     sign_with_operator1_key := λ _, "sig";
     SignedMessage_Encode := failing_encoder "cannot encode signed message";
     SSVMessage_Encode := ok_encoder "ssv:" SSV_Data |}.

(** Every server answers 200; the encoder of the transport envelope fails. *)
Definition outer_encoder_fails : Env :=
  {| map_range := walk_order;
     lib_error_text := lib_text;
     http := always (HttpResponse 200);
     getRandRequestID := "0123456789abcdef01234567";
     MessengerAddrFromEnv := "http://messenger";
     DefaultTopic := "default";
     json_Marshal_TopicJSON := λ t, TopicName t +:+ ":" +:+ String.concat "," (Subscribers t);
     json_Marshal_Subscriber := λ s, Name s +:+ "@" +:+ Subscriber_SrvAddr s;
     Reshare_Encode := ok_encoder "reshare:" Reshare_ValidatorPK;
     sign_with_operator1_key := λ _, "sig";
     SignedMessage_Encode := ok_encoder "signed:" (λ m, Message_Data (SignedMessage_Message m));
     SSVMessage_Encode := failing_encoder "cannot encode ssv message" |}.

(** The messenger answers 500 to everything. *)
Definition messenger_rejects : Env := env (always (HttpResponse 500)).

(** The messenger cannot be reached at first, then answers 503. *)
Definition messenger_recovering : Env :=
  env (scripted [HttpFail (foreignError "connection refused"); HttpResponse 503]).

(** The messenger cannot be reached twice, then answers 200. *)
Definition messenger_third_time : Env :=
  env (scripted [HttpFail (foreignError "connection refused");
                 HttpFail (foreignError "connection reset"); HttpResponse 200]).

Definition messenger : Client := NewMessengerClient "http://messenger".

End Stub.



(** ** What an observer of a run sees *)

(** The world after some more requests, or one more line of output. *)
Definition posted (w : World) (rqs : list Request) : World :=
  {| sent := sent w ++ rqs; stdout := stdout w; logged := logged w |}.

Definition printed (w : World) (line : string) : World :=
  {| sent := sent w; stdout := stdout w ++ [line]; logged := logged w |}.

(** The requests made through the handler's client: the deliveries. *)
Definition deliveries (rqs : list Request) : list Request :=
  filter (λ rq, via rq = handlerClient) rqs.

(** The requests made through the messenger client. *)
Definition messenger_calls (rqs : list Request) : list Request :=
  filter (λ rq, via rq = messengerClient) rqs.

(** The pair Go's Post returns for an answer of the world. *)
Definition answer (r : HttpResult) : option Response * option error :=
  match r with
  | HttpFail err => (None, Some err)
  | HttpResponse code => (Some {| StatusCode := code |}, None)
  end.

(** The request sendReshareMsg posts for an operator. *)
Definition consume_request (request : ResharingRequest) (data : string)
    (operatorID : Z) : Request :=
  {| via := handlerClient; url := nodeAddress request operatorID +:+ "/consume";
     contentType := "application/json"; body := data |}.

(** A delivery succeeds when the world answers status 200. *)
Definition delivered (r : HttpResult) : bool :=
  match r with
  | HttpResponse code => bool_decide (code = Go.StatusOK)
  | HttpFail _ => false
  end.

Section Observations.

Context (E : Env).

(** The operator list HandleResharing works with. *)
Definition alloperators (request : ResharingRequest) : list Z :=
  newOperators E 0 request ++ oldOperators E 1 request.

(** The request CreateTopic posts for a session. *)
Definition topic_request (request : ResharingRequest) : Request :=
  {| via := messengerClient;
     url := SrvAddr (NewMessengerClient (MessengerAddrFromEnv E)) +:+ "/topics";
     contentType := "application/json";
     body := json_Marshal_TopicJSON E
               (make_topic (Go.hex_EncodeToString (getRandRequestID E))
                           (alloperators request)) |}.

(** The request RegisterOperatorNode posts at every attempt. *)
Definition register_request (cl : Client) (id addr : string) : Request :=
  {| via := messengerClient;
     url := SrvAddr cl +:+ "/register_node?subscribes_to=" +:+ DefaultTopic E;
     contentType := "application/json";
     body := json_Marshal_Subscriber E {| Name := id; Subscriber_SrvAddr := addr |} |}.

(** The world answers 200 to each of these requests, posted in this order
    after the requests of [history]. *)
Fixpoint all_delivered (history : list Request) (rqs : list Request) : bool :=
  match rqs with
  | [] => true
  | rq :: rest => delivered (http E history rq) && all_delivered (history ++ [rq]) rest
  end.

(** The world answers each of these requests, posted in this order after
    [history], with a transport error. *)
Fixpoint all_unreachable (history : list Request) (rqs : list Request) : bool :=
  match rqs with
  | [] => true
  | rq :: rest =>
      match http E history rq with
      | HttpFail _ => all_unreachable (history ++ [rq]) rest
      | HttpResponse _ => false
      end
  end.

(** The error sendReshareMsg returns for an answer of the world. *)
Definition delivery_error (operatorID : Z) (r : HttpResult) : option error :=
  match r with
  | HttpFail err => Some err
  | HttpResponse code =>
      if decide (code ≠ Go.StatusOK) then
        Some (errorString
          ("failed to send reshare message with code " +:+ Go.strconv_Itoa code
           +:+ " to operator " +:+ Go.strconv_Itoa operatorID))
      else None
  end.

(** The error CreateTopic returns for an answer of the world. *)
Definition topic_error (r : HttpResult) : option error :=
  match r with
  | HttpFail err => Some err
  | HttpResponse code =>
      if decide (code ≠ Go.StatusOK)
      then Some (errorString "failed to call createTopic on messenger")
      else None
  end.

(** The transport envelope initMsgForResharing encodes last, for the
    decoded key [vk]; the bytes of the two inner encoders go into it, whatever
    error came with them. *)
Definition outer_envelope (request : ResharingRequest) (requestID vk : string)
  : SSVMessage :=
  let reshare := ReshareMessageData (newOperators E 2 request)
                   (Go.uint16_of_int (Threshold request)) vk (oldOperators E 3 request) in
  let reshareMsg := SignDKGMsg E 1
        {| Message_MsgType := ReshareMsgType; Identifier := requestID;
           Message_Data := (Reshare_Encode E reshare).1 |} in
  {| SSV_MsgType := DKGMsgType; SSV_Data := (SignedMessage_Encode E reshareMsg).1 |}.

(** The same environment with the errors of the two inner encoders, of the
    reshare parameters and of the signed envelope, taken away. *)
Definition silenced : Env :=
  {| map_range := map_range E;
     lib_error_text := lib_error_text E;
     http := http E;
     getRandRequestID := getRandRequestID E;
     MessengerAddrFromEnv := MessengerAddrFromEnv E;
     DefaultTopic := DefaultTopic E;
     json_Marshal_TopicJSON := json_Marshal_TopicJSON E;
     json_Marshal_Subscriber := json_Marshal_Subscriber E;
     Reshare_Encode := λ r, ((Reshare_Encode E r).1, None);
     sign_with_operator1_key := sign_with_operator1_key E;
     SignedMessage_Encode := λ m, ((SignedMessage_Encode E m).1, None);
     SSVMessage_Encode := SSVMessage_Encode E |}.

(** The line HandleResharing prints when it is done. *)
Definition session_line : string :=
  "resharing init request sent with ID: "
  +:+ Go.hex_EncodeToString (getRandRequestID E) +:+ Go.LF.

End Observations.

(** A token of --operator or --old-operator is accepted when, trimmed, it
    splits at = into exactly two parts and strconv.Atoi accepts the first. *)
Definition token_accepted (op : string) : bool :=
  match Go.strings_Split (Go.strings_Trim op " ") "=" with
  | [p0; _] => bool_decide (snd (Go.strconv_Atoi p0) = None)
  | _ => false
  end.
(** The operator id and address an accepted token stands for. *)
Definition token_pair (op : string) : option (Z * string) :=
  match Go.strings_Split (Go.strings_Trim op " ") "=" with
  | [p0; p1] =>
      match Go.strconv_Atoi p0 with
      | (opID, None) => Some (Go.uint64_of_int opID, p1)
      | (_, Some _) => None
      end
  | _ => None
  end.

(** A command without operators, and the scenario with threshold 65538. *)
Definition Stub_nobody : Context :=
  {| flag_threshold := 0; flag_validator_pk := EmptyString;
     flag_operator := []; flag_old_operator := [] |}.

Definition Stub_huge_threshold : Context :=
  {| flag_threshold := 65538; flag_validator_pk := "ab12";
     flag_operator := ["1=http://a"; "2=http://b"];
     flag_old_operator := ["1=http://a"; "3=http://c"] |}.

(** ** The rest of internal/messenger/client.go *)

(** A *dkg.SignedMessage as a caller hands it over: its Message field is a
    pointer too.  Here and below [None] is the nil pointer. *)
Record SignedMessagePtr := {
  Ptr_Message : option Message;
  Ptr_Signer : Z;
  Ptr_Signature : string
}.

(** The signed message behind the pointers, once its Message is known not
    to be nil. *)
Definition SignedMessage_at (m : SignedMessagePtr) (inner : Message) : SignedMessage :=
  {| SignedMessage_Message := inner; Signer := Ptr_Signer m;
     Signature := Ptr_Signature m |}.

(** Following a pointer: a nil pointer panics. *)
Definition deref {A} (p : option A) : IO A :=
  match p with
  | Some a => mret a
  | None => panic nil_dereference
  end.

(** dkg.BlameOutput, dkg.Output, dkg.KeySignOutput and dkg.SignedOutput of
    ssv-spec, with the fields client.go reads.  The blame message of a blame
    output and the two data fields of a signed output are pointers. *)
Record BlameOutput := { Valid : bool; BlameMessage : option SignedMessagePtr }.

Record Output := { Output_RequestID : string }.

Record KeySignOutput := { KeySignOutput_RequestID : string }.

Record SignedOutput := { Data : option Output; KeySignData : option KeySignOutput }.

Section MoreMessenger.

Context (E : Env).

(** json.Marshal of a blame output and of a map of signed outputs, and the
    order in which range walks such a map, whose values are pointers. *)
Variable json_Marshal_BlameOutput : BlameOutput → string * option error.
Variable json_Marshal_outputs : gmap Z (option SignedOutput) → string * option error.
Variable range_outputs : gmap Z (option SignedOutput) → list (Z * option SignedOutput).

Definition publish (cl : Client) (topicName data : string) : IO (option error) :=
  '(resp, err) ← Post E messengerClient
                   (SrvAddr cl +:+ "/publish?topic_name=" +:+ topicName)
                   "application/json" data;
  match err with
  | Some e => mret (Some e)
  | None =>
      code ← get_StatusCode resp;
      if decide (code ≠ Go.StatusOK) then
        mret (Some (errorString "failed to call publish request to messenger"))
      else mret None
  end.

Definition stream (cl : Client) (urlparam requestID data : string) : IO (option error) :=
  '(resp, err) ← Post E messengerClient
                   (SrvAddr cl +:+ "/stream/" +:+ urlparam +:+ "?request_id=" +:+ requestID)
                   "application/json" data;
  match err with
  | Some e => mret (Some e)
  | None =>
      code ← get_StatusCode resp;
      if decide (code ≠ Go.StatusOK) then
        mret (Some (errorString
          ("failed to call stream " +:+ urlparam +:+ " request to messenger")))
      else mret None
  end.

(** [blame.BlameMessage.Message.Identifier] follows three pointers, the
    argument itself being the first, before anything else is done. *)
Definition StreamDKGBlame (cl : Client) (blame : option BlameOutput) : IO (option error) :=
  b ← deref blame;
  m ← deref (BlameMessage b);
  inner ← deref (Ptr_Message m);
  let requestID := Go.hex_EncodeToString (Identifier inner) in
  let '(data, err) := json_Marshal_BlameOutput b in
  match err with
  | Some e => mret (Some e)
  | None => stream cl "dkgblame" requestID data
  end.

(** The loop of StreamDKGOutput over the outputs, in the order of the walk:
    an output with data, or else with key-sign data, sets the request id. *)
Fixpoint output_requestID (outputs : list (Z * option SignedOutput))
    (requestID : string) : IO string :=
  match outputs with
  | [] => mret requestID
  | (_, None) :: _ => panic nil_dereference
  | (_, Some output) :: rest =>
      let requestID :=
        match Data output with
        | Some d => Go.hex_EncodeToString (Output_RequestID d)
        | None =>
            match KeySignData output with
            | Some k => Go.hex_EncodeToString (KeySignOutput_RequestID k)
            | None => requestID
            end
        end in
      output_requestID rest requestID
  end.

Definition StreamDKGOutput (cl : Client) (output : gmap Z (option SignedOutput))
  : IO (option error) :=
  requestID ← output_requestID (range_outputs output) EmptyString;
  let '(data, err) := json_Marshal_outputs output in
  match err with
  | Some e => mret (Some e)
  | None => stream cl "dkgoutput" requestID data
  end.

(** [msg.Message.Identifier] follows two pointers, the argument itself
    being the first, before the message is encoded. *)
Definition BroadcastDKGMessage (cl : Client) (msg : option SignedMessagePtr)
  : IO (option error) :=
  m ← deref msg;
  inner ← deref (Ptr_Message m);
  let requestID := Go.hex_EncodeToString (Identifier inner) in
  let '(msgBytes, err) := SignedMessage_Encode E (SignedMessage_at m inner) in
  match err with
  | Some e => mret (Some e)
  | None =>
      let ssvMsg := {| SSV_MsgType := DKGMsgType; SSV_Data := msgBytes |} in
      let '(ssvMsgBytes, _) := SSVMessage_Encode E ssvMsg in
      publish cl requestID ssvMsgBytes
  end.

(** The request publish and stream post. *)
Definition publish_request (cl : Client) (topicName data : string) : Request :=
  {| via := messengerClient;
     url := SrvAddr cl +:+ "/publish?topic_name=" +:+ topicName;
     contentType := "application/json"; body := data |}.

Definition stream_request (cl : Client) (urlparam requestID data : string) : Request :=
  {| via := messengerClient;
     url := SrvAddr cl +:+ "/stream/" +:+ urlparam +:+ "?request_id=" +:+ requestID;
     contentType := "application/json"; body := data |}.

End MoreMessenger.

(** Stub marshallers and a walk order for the outputs. *)
Definition Stub_marshal_blame (b : BlameOutput) : string * option error :=
  ("blame", None).

Definition Stub_marshal_outputs (m : gmap Z (option SignedOutput)) : string * option error :=
  ("outputs", None).

Definition Stub_range_outputs (m : gmap Z (option SignedOutput))
  : list (Z * option SignedOutput) := map_to_list m.

Definition Stub_outputs : gmap Z (option SignedOutput) :=
  <[1 := Some {| Data := Some {| Output_RequestID := "id" |}; KeySignData := None |}]>
    (<[2 := Some {| Data := None; KeySignData := None |}]>
       (<[3 := Some {| Data := None;
                      KeySignData := Some {| KeySignOutput_RequestID := "id" |} |}]> ∅)).

Definition Stub_message : Message :=
  {| Message_MsgType := ReshareMsgType; Identifier := "id"; Message_Data := "data" |}.

Definition Stub_signed : SignedMessagePtr :=
  {| Ptr_Message := Some Stub_message; Ptr_Signer := 1; Ptr_Signature := "sig" |}.

(** A signed message whose Message is nil. *)
Definition Stub_unsigned : SignedMessagePtr :=
  {| Ptr_Message := None; Ptr_Signer := 1; Ptr_Signature := "sig" |}.

(** ** The storage package *)

(** storage.KeyGenOutput: a key generation output as it is written to the
    store, keys and shares in hexadecimal. *)
Record StoredKeyGenOutput := {
  Stored_Share : string;
  Stored_OperatorPubKeys : gmap Z string;
  Stored_ValidatorPK : string;
  Stored_Threshold : Z
}.

(** The zero value [&KeyGenOutput{}]. *)
Definition StoredKeyGenOutput_zero : StoredKeyGenOutput :=
  {| Stored_Share := EmptyString; Stored_OperatorPubKeys := ∅;
     Stored_ValidatorPK := EmptyString; Stored_Threshold := 0 |}.

(** The badger store: its keys and values, and how many transactions it has
    run.  A transaction may fail for reasons of the store; [txn_error] says
    which ones do. *)
Record Store := {
  db : gmap string string;
  txns : nat;
  fetched : list Z          (* the ids FetchOperatorByID was asked for *)
}.

Inductive ViewResult :=
  | Found (val : string)
  | KeyNotFound                (* badger.ErrKeyNotFound *)
  | ViewFailed (err : error).

Definition ErrKeyNotFound : error := foreignError "Key not found".

Section Storage.

Context (E : Env).

(** bls.SecretKey, bls.PublicKey and dkg.Operator, with their hexadecimal
    and JSON forms; the secret key and the public keys of an output are
    taken not to be nil. *)
Variables SecretKey PublicKey Operator : Type.

Variable sk_SerializeToHexStr : SecretKey → string.
Variable sk_DeserializeHexStr : string → SecretKey * option error.
Variable pk_SerializeToHexStr : PublicKey → string.
Variable pk_DeserializeHexStr : string → PublicKey * option error.

Variable json_Marshal_KeyGenOutput : StoredKeyGenOutput → string * option error.
Variable json_Unmarshal_KeyGenOutput :
  string → StoredKeyGenOutput → StoredKeyGenOutput * option error.
Variable json_Marshal_Operator : option Operator → string * option error.
Variable json_Unmarshal_Operator : string → Operator * option error.

(** FetchOperatorByID, of this repository, declared in another file: what
    it returns for an id, after the fetches made so far. *)
Variable FetchOperatorByID : list Z → Z → option Operator * option error.

(** The order in which range walks the two kinds of key maps. *)
Variable range_pks : gmap Z PublicKey → list (Z * PublicKey).
Variable range_hex : gmap Z string → list (Z * string).

(** The failure, if any, of the n-th transaction of the store. *)
Variable txn_error : nat → option error.

(** dkg.KeyGenOutput *)
Record KeyGenOutput := {
  Share : SecretKey;
  OperatorPubKeys : gmap Z PublicKey;
  KeyGenOutput_ValidatorPK : string;
  KeyGenOutput_Threshold : Z
}.

(** db.View of a transaction that reads one key and copies its value. *)
Definition db_View (s : Store) (key : string) : ViewResult * Store :=
  let s' := {| db := db s; txns := S (txns s); fetched := fetched s |} in
  match txn_error (txns s) with
  | Some e => (ViewFailed e, s')
  | None =>
      match db s !! key with
      | Some val => (Found val, s')
      | None => (KeyNotFound, s')
      end
  end.

(** db.Update of a transaction that sets one key. *)
Definition db_Update (s : Store) (key value : string) : option error * Store :=
  match txn_error (txns s) with
  | Some e => (Some e, {| db := db s; txns := S (txns s); fetched := fetched s |})
  | None =>
      (None, {| db := <[key := value]> (db s); txns := S (txns s);
                fetched := fetched s |})
  end.

Definition GetDKGOperator (s : Store) (operatorID : Z)
  : (bool * option Operator * option error) * Store :=
  let key := "operator/" +:+ Go.strconv_Itoa operatorID in
  let '(view, s1) := db_View s key in
  match view with
  | ViewFailed err => ((false, None, Some err), s1)
  | Found val =>
      let '(operator, err) := json_Unmarshal_Operator val in
      match err with
      | Some e => ((false, None, Some e), s1)
      | None => ((true, Some operator, None), s1)
      end
  | KeyNotFound =>
      let '(operator, err) := FetchOperatorByID (fetched s1) operatorID in
      let s2 := {| db := db s1; txns := txns s1;
                   fetched := fetched s1 ++ [operatorID] |} in
      match err with
      | Some e => ((false, None, Some e), s2)
      | None =>
          let '(value, err) := json_Marshal_Operator operator in
          match err with
          | Some e =>
              ((false, None,
                Some (errorString ("failed to marshal keygen output :: " +:+ Error E e))),
               s2)
          | None =>
              let '(err, s3) := db_Update s2 key value in
              match err with
              | Some e => ((false, None, Some e), s3)
              | None => ((true, operator, None), s3)
              end
          end
      end
  end.

(** The loop of Encode over the public keys. *)
Definition encode_pks (pks : list (Z * PublicKey)) (acc : gmap Z string) : gmap Z string :=
  foldl (λ (acc : gmap Z string) entry,
           <[entry.1 := pk_SerializeToHexStr entry.2]> acc) acc pks.

(** The value Encode builds from an output before it marshals it. *)
Definition KeyGenOutput_stored (output : KeyGenOutput) : StoredKeyGenOutput :=
  {| Stored_Share := sk_SerializeToHexStr (Share output);
     Stored_OperatorPubKeys := encode_pks (range_pks (OperatorPubKeys output)) ∅;
     Stored_ValidatorPK := Go.hex_EncodeToString (KeyGenOutput_ValidatorPK output);
     Stored_Threshold := KeyGenOutput_Threshold output |}.

Definition KeyGenOutput_Encode (output : KeyGenOutput) : string * option error :=
  let kgo := KeyGenOutput_stored output in
  json_Marshal_KeyGenOutput kgo.

(** The loop of Decode over the public keys: it stops at the first key that
    cannot be read. *)
Fixpoint decode_pks (pks : list (Z * string)) (acc : gmap Z PublicKey)
  : gmap Z PublicKey * option error :=
  match pks with
  | [] => (acc, None)
  | (operatorID, pkhex) :: rest =>
      let '(pk, err) := pk_DeserializeHexStr pkhex in
      match err with
      | Some e => (acc, Some e)
      | None => decode_pks rest (<[operatorID := pk]> acc)
      end
  end.

(** Decode, on the receiver [o]: the output, if any, and the error. *)
Definition KeyGenOutput_Decode (o : StoredKeyGenOutput) (output : string)
  : option KeyGenOutput * option error :=
  let '(o, err) := json_Unmarshal_KeyGenOutput output o in
  match err with
  | Some e => (None, Some e)
  | None =>
      let '(vk, err) := Go.hex_DecodeString (Stored_ValidatorPK o) in
      match err with
      | Some e => (None, Some e)
      | None =>
          let '(share, err) := sk_DeserializeHexStr (Stored_Share o) in
          match err with
          | Some e => (None, Some e)
          | None =>
              let '(pks, err) := decode_pks (range_hex (Stored_OperatorPubKeys o)) ∅ in
              match err with
              | Some e => (None, Some e)
              | None =>
                  (Some {| Share := share; OperatorPubKeys := pks;
                           KeyGenOutput_ValidatorPK := vk;
                           KeyGenOutput_Threshold := Stored_Threshold o |}, None)
              end
          end
      end
  end.

Definition SaveKeyGenOutput (s : Store) (output : KeyGenOutput) : option error * Store :=
  let '(value, err) := KeyGenOutput_Encode output in
  match err with
  | Some e =>
      (Some (errorString ("failed to marshal keygen output :: " +:+ Error E e)), s)
  | None => db_Update s (KeyGenOutput_ValidatorPK output) value
  end.

Definition GetKeyGenOutput (s : Store) (pk : string)
  : (option KeyGenOutput * option error) * Store :=
  let '(view, s1) := db_View s pk in
  match view with
  | ViewFailed err => ((None, Some err), s1)
  | KeyNotFound => ((None, Some ErrKeyNotFound), s1)
  | Found val =>
      let '(result, err) := KeyGenOutput_Decode StoredKeyGenOutput_zero val in
      match err with
      | Some e =>
          ((None,
            Some (errorString ("failed to unmarshal keygen output :: " +:+ Error E e))),
           s1)
      | None => ((result, None), s1)
      end
  end.

End Storage.

(** A stub store: keys are strings, operators are strings, JSON writes an
    operator as it is, and the stored form of a key generation output is
    kept in a side table instead of being parsed. *)
Definition Stub_output : KeyGenOutput string string :=
  {| Share := "share"; OperatorPubKeys := <[1 := "pk1"]> (<[2 := "pk2"]> ∅);
     KeyGenOutput_ValidatorPK := "validator"; KeyGenOutput_Threshold := 2 |}.

Definition Stub_stored : StoredKeyGenOutput :=
  {| Stored_Share := "share";
     Stored_OperatorPubKeys := <[1 := "pk1"]> (<[2 := "pk2"]> ∅);
     Stored_ValidatorPK := Go.hex_EncodeToString "validator"; Stored_Threshold := 2 |}.

Definition Stub_hex_ok (s : string) : string * option error := (s, None).

Definition Stub_marshal_kgo (kgo : StoredKeyGenOutput) : string * option error :=
  ("kgo", None).

Definition Stub_unmarshal_kgo (bytes : string) (o : StoredKeyGenOutput)
  : StoredKeyGenOutput * option error := (Stub_stored, None).

Definition Stub_marshal_operator (op : option string) : string * option error :=
  (default "null" op, None).

Definition Stub_fetch (history : list Z) (operatorID : Z) : option string * option error :=
  (Some ("operator " +:+ Go.strconv_Itoa operatorID), None).

Definition Stub_txn_ok (n : nat) : option error := None.

Definition store0 : Store := {| db := ∅; txns := 0; fetched := [] |}.

Example Trim_ex : Go.strings_Trim "  1=http://a " " " = "1=http://a".
Proof. reflexivity. Qed.

Example Split_ex :
  Go.strings_Split "1=http://a" "=" = ["1"; "http://a"] ∧
  Go.strings_Split "1=a=b" "=" = ["1"; "a"; "b"] ∧
  Go.strings_Split "abc" "=" = ["abc"] ∧
  Go.strings_Split EmptyString "=" = [EmptyString].
Proof. repeat split; reflexivity. Qed.

Example Atoi_ex :
  Go.strconv_Atoi "12" = (12, None) ∧
  Go.strconv_Atoi "-7" = (-7, None) ∧
  Go.strconv_Atoi "+7" = (7, None) ∧
  Go.strconv_Atoi "x" = (0, Some (libError (NumError "Atoi" "x" ErrSyntax))) ∧
  Go.strconv_Atoi "1_0" = (0, Some (libError (NumError "Atoi" "1_0" ErrSyntax))) ∧
  Go.strconv_Atoi "-" = (0, Some (libError (NumError "Atoi" "-" ErrSyntax))) ∧
  Go.strconv_Atoi "9223372036854775808" =
    (9223372036854775807, Some (libError (NumError "Atoi" "9223372036854775808" ErrRange))) ∧
  Go.strconv_Atoi "-9223372036854775808" = (-9223372036854775808, None).
Proof. repeat split; vm_compute; reflexivity. Qed.

Example Atoi_overflow_ex :
  Go.strconv_Atoi "99999999999999999999x" =
    (9223372036854775807,
     Some (libError (NumError "Atoi" "99999999999999999999x" ErrRange))) ∧
  Go.strconv_Atoi "-99999999999999999999" =
    (-9223372036854775808,
     Some (libError (NumError "Atoi" "-99999999999999999999" ErrRange))) ∧
  Go.strconv_Atoi "9999999999999999999x" =
    (0, Some (libError (NumError "Atoi" "9999999999999999999x" ErrSyntax))).
Proof. repeat split; vm_compute; reflexivity. Qed.

Example hex_ex :
  Go.hex_DecodeString "ab12" =
    (String (ascii_of_nat 171) (String (ascii_of_nat 18) EmptyString), None) ∧
  Go.hex_DecodeString "zz" = (EmptyString, Some (libError (InvalidByteError "z"))) ∧
  Go.hex_DecodeString "abc" =
    (String (ascii_of_nat 171) EmptyString, Some (libError ErrLength)) ∧
  Go.hex_EncodeToString (String (ascii_of_nat 171) (String (ascii_of_nat 18) EmptyString))
    = "ab12".
Proof. repeat split; vm_compute; reflexivity. Qed.

(** ** Running the primitives *)

Lemma posted_nil w : posted w [] = w.
Proof. destruct w; unfold posted; simpl. by rewrite app_nil_r. Qed.

Lemma posted_posted w a b : posted (posted w a) b = posted w (a ++ b).
Proof. unfold posted; simpl. by rewrite app_assoc. Qed.

Lemma delivered_true r : delivered r = true ↔ r = HttpResponse Go.StatusOK.
Proof.
  destruct r as [e|code]; simpl; [split; discriminate|].
  rewrite bool_decide_eq_true. split; [by intros ->|by intros [= ->]].
Qed.

Lemma delivery_error_None operatorID r :
  delivery_error operatorID r = None ↔ delivered r = true.
Proof.
  destruct r as [e|code]; simpl; [split; discriminate|].
  rewrite bool_decide_eq_true. case_decide; split; intros; done.
Qed.

Lemma delivery_error_Some operatorID r :
  delivered r = false → is_Some (delivery_error operatorID r).
Proof.
  intros H. destruct (delivery_error operatorID r) eqn:Hd; [eauto|].
  apply delivery_error_None in Hd. congruence.
Qed.

Section Runs.

Context (E : Env).

Lemma Post_run cl u ct data w :
  Post E cl u ct data w =
    (Val (answer (http E (sent w) {| via := cl; url := u; contentType := ct; body := data |})),
     posted w [{| via := cl; url := u; contentType := ct; body := data |}]).
Proof. unfold Post, posted, answer. by destruct (http E _ _). Qed.

Lemma sendReshareMsg_run request data operatorID w :
  sendReshareMsg E operatorID (nodeAddress request operatorID) data w =
    (Val (delivery_error operatorID
            (http E (sent w) (consume_request request data operatorID))),
     posted w [consume_request request data operatorID]).
Proof.
  unfold sendReshareMsg, mbind, IO_bind. rewrite Post_run.
  fold (consume_request request data operatorID).
  destruct (http E _ _) as [e|code]; simpl; [done|].
  unfold mbind, IO_bind, mret, IO_ret; simpl. by case_decide.
Qed.

Lemma CreateTopic_run request w :
  CreateTopic E (NewMessengerClient (MessengerAddrFromEnv E))
      (Go.hex_EncodeToString (getRandRequestID E)) (alloperators E request) w =
    (Val (topic_error (http E (sent w) (topic_request E request))),
     posted w [topic_request E request]).
Proof.
  unfold CreateTopic, topic_error, mbind, IO_bind. rewrite Post_run.
  fold (topic_request E request).
  destruct (http E _ _) as [e|code]; simpl; [done|].
  unfold mbind, IO_bind, mret, IO_ret; simpl. by case_decide.
Qed.

Lemma topic_error_None r : topic_error r = None ↔ delivered r = true.
Proof.
  destruct r as [e|code]; simpl; [split; discriminate|].
  rewrite bool_decide_eq_true. case_decide; split; intros; done.
Qed.

(** The delivery loop, when every delivery is answered 200. *)
Lemma deliver_all request data (l : list Z) : ∀ w,
  all_delivered E (sent w) (consume_request request data <$> l) = true →
  deliver E request data l w =
    (Val None, posted w (consume_request request data <$> l)).
Proof.
  induction l as [|operatorID rest IH]; intros w Hall; simpl.
  - by rewrite posted_nil.
  - simpl in Hall. apply andb_true_iff in Hall as [Hd Hrest].
    unfold mbind, IO_bind. rewrite sendReshareMsg_run.
    apply (delivery_error_None operatorID) in Hd. rewrite Hd.
    rewrite IH; [by rewrite posted_posted|done].
Qed.

(** The delivery loop, when a delivery is not answered 200: the loop is left
    there, with the error of that delivery. *)
Lemma deliver_first_failure request data (l1 : list Z) operatorID (l2 : list Z) : ∀ w,
  all_delivered E (sent w) (consume_request request data <$> l1) = true →
  delivered (http E (sent w ++ (consume_request request data <$> l1))
                    (consume_request request data operatorID)) = false →
  deliver E request data (l1 ++ operatorID :: l2)%list w =
    (Val (delivery_error operatorID
            (http E (sent w ++ (consume_request request data <$> l1))
                    (consume_request request data operatorID))),
     posted w (consume_request request data <$> (l1 ++ [operatorID])%list)).
Proof.
  induction l1 as [|o rest IH]; intros w Hall Hfail; simpl in *.
  - rewrite app_nil_r in *. unfold mbind, IO_bind. rewrite sendReshareMsg_run.
    destruct (delivery_error_Some operatorID _ Hfail) as [e He]. by rewrite He.
  - apply andb_true_iff in Hall as [Hd Hrest].
    unfold mbind, IO_bind. rewrite sendReshareMsg_run.
    apply (delivery_error_None o) in Hd. rewrite Hd.
    rewrite (IH (posted w [consume_request request data o])); simpl.
    + by rewrite posted_posted, <- !app_assoc.
    + done.
    + by rewrite <- app_assoc.
Qed.

(** The delivery loop never panics, posts deliveries only, to a prefix of the
    operator list, and prints nothing. *)
Lemma deliver_total request data (l : list Z) : ∀ w,
  ∃ r k, deliver E request data l w =
           (Val r, posted w (consume_request request data <$> take k l)).
Proof.
  induction l as [|operatorID rest IH]; intros w; simpl.
  - exists None, 0%nat. by rewrite posted_nil.
  - unfold mbind, IO_bind. rewrite sendReshareMsg_run.
    destruct (delivery_error _ _) as [e|].
    + by exists (Some e), 1%nat.
    + destruct (IH (posted w [consume_request request data operatorID])) as (r & k & ->).
      exists r, (S k). by rewrite posted_posted.
Qed.

(** HandleResharing, stage by stage, once the flags have been parsed. *)
Lemma HandleResharing_unfold c request w :
  parseResharingRequest c = (request, None) →
  HandleResharing E c w =
    let w1 := posted w [topic_request E request] in
    match topic_error (http E (sent w) (topic_request E request)) with
    | Some e =>
        (Val (Some (wrapError
           "HandleResharing: failed to createa new topic on messenger service" e)), w1)
    | None =>
        match initMsgForResharing E request (getRandRequestID E) with
        | (_, Some e) =>
            (Val (Some (wrapError
               "HandleResharing: failed to generate init message for keygen" e)), w1)
        | (data, None) =>
            match deliver E request data (alloperators E request) w1 with
            | (Val (Some e), w2) => (Val (Some e), w2)
            | (Val None, w2) => (Val None, printed w2 (session_line E))
            | (Panic msg, w2) => (Panic msg, w2)
            end
        end
    end.
Proof.
  intros Hparse. unfold HandleResharing. rewrite Hparse.
  unfold mbind, IO_bind. fold (alloperators E request).
  rewrite CreateTopic_run.
  destruct (topic_error _) as [e|]; [done|].
  destruct (initMsgForResharing E request _) as [data [e|]]; [done|].
  destruct (deliver E request data _ _) as [[[e|]|msg] w2]; done.
Qed.

Lemma HandleResharing_parse_error c request e w :
  parseResharingRequest c = (request, Some e) →
  HandleResharing E c w =
    (Val (Some (wrapError "HandleResharing: failed to parse resharing request" e)), w).
Proof. intros Hparse. unfold HandleResharing. by rewrite Hparse. Qed.

End Runs.

Lemma messenger_calls_consume request data (l : list Z) :
  messenger_calls (consume_request request data <$> l) = [].
Proof.
  unfold messenger_calls. induction l as [|o l IH]; [done|].
  rewrite fmap_cons, filter_cons_False; [done|]. simpl. discriminate.
Qed.

Lemma deliveries_consume request data (l : list Z) :
  deliveries (consume_request request data <$> l) = consume_request request data <$> l.
Proof.
  unfold deliveries. induction l as [|o l IH]; [done|].
  rewrite fmap_cons, filter_cons_True; [by rewrite IH|done].
Qed.

(** ** Address resolution *)

(** C9: nodeAddress gives the address of the new operator map for an id
    that both maps hold, the address of the old map for an id only the old
    map holds, and the empty string for an id in neither. *)
Theorem C9_nodeAddress_new_takes_precedence
    (request : ResharingRequest) (operatorID : Z) :
  (∀ a b, Operators request !! operatorID = Some a →
          OperatorsOld request !! operatorID = Some b →
          nodeAddress request operatorID = a) ∧
  (∀ b, Operators request !! operatorID = None →
        OperatorsOld request !! operatorID = Some b →
        nodeAddress request operatorID = b) ∧
  (Operators request !! operatorID = None →
   OperatorsOld request !! operatorID = None →
   nodeAddress request operatorID = EmptyString).
Proof.
  unfold nodeAddress. repeat split.
  - intros a b Hnew _. by rewrite Hnew.
  - intros b Hnew Hold. by rewrite Hnew, Hold.
  - intros Hnew Hold. by rewrite Hnew, Hold.
Qed.

Lemma C9_nodeAddress_witness :
  nodeAddress Stub.both_maps 1 = "http://new" ∧
  nodeAddress Stub.both_maps 3 = "http://c" ∧
  nodeAddress Stub.both_maps 9 = EmptyString.
Proof.
  split; [|split].
  - apply (proj1 (C9_nodeAddress_new_takes_precedence Stub.both_maps 1)
             "http://new" "http://old"); reflexivity.
  - apply (proj1 (proj2 (C9_nodeAddress_new_takes_precedence Stub.both_maps 3))
             "http://c"); reflexivity.
  - apply (proj2 (proj2 (C9_nodeAddress_new_takes_precedence Stub.both_maps 9)));
      reflexivity.
Defined.

(** ** The stages of a session *)

(** C4: once the flags have been parsed, the topic request is posted exactly
    once, before anything else; and when topic creation is not answered 200
    or the initiation message cannot be composed, the call returns an error
    and no delivery is posted. *)
Theorem C4_fatal_setup_failure_precedes_delivery
    (E : Env) (c : Context) (request : ResharingRequest) (w : World) :
  parseResharingRequest c = (request, None) →
  ∃ r w' rest,
    HandleResharing E c w = (Val r, w') ∧
    sent w' = (sent w ++ topic_request E request :: rest)%list ∧
    messenger_calls (topic_request E request :: rest) = [topic_request E request] ∧
    (delivered (http E (sent w) (topic_request E request)) = false ∨
     is_Some (snd (initMsgForResharing E request (getRandRequestID E))) →
     is_Some r ∧ rest = []).
Proof.
  intros Hparse. rewrite (HandleResharing_unfold E c request w Hparse). simpl.
  assert (Hone : ∀ l : list Z, messenger_calls
            (topic_request E request
               :: (consume_request request (initMsgForResharing E request
                     (getRandRequestID E)).1 <$> l)) = [topic_request E request]).
  { intros l. unfold messenger_calls. rewrite filter_cons_True by done.
    f_equal. apply messenger_calls_consume. }
  destruct (topic_error _) as [e|] eqn:Htopic.
  { eexists _, _, []. repeat split; eauto. }
  apply topic_error_None in Htopic.
  destruct (initMsgForResharing E request _) as [data [e|]] eqn:Hinit.
  { eexists _, _, []. repeat split; eauto. }
  destruct (deliver_total E request data (alloperators E request)
              (posted w [topic_request E request])) as (r & k & Hrun).
  rewrite Hrun. simpl in Hone.
  destruct r as [e|].
  - eexists _, _, _. split; [done|]. simpl. rewrite <- app_assoc. split; [done|].
    split; [apply Hone|].
    intros [Hbad|[e' Hbad]]; [congruence|discriminate].
  - eexists _, _, _. split; [done|]. simpl. rewrite <- app_assoc. split; [done|].
    split; [apply Hone|].
    intros [Hbad|[e' Hbad]]; [congruence|discriminate].
Qed.

Section Sessions.

Context (E : Env) (c : Context) (request : ResharingRequest) (data : string) (w : World).

Hypothesis parsed : parseResharingRequest c = (request, None).
Hypothesis topic_created :
  delivered (http E (sent w) (topic_request E request)) = true.
Hypothesis composed :
  initMsgForResharing E request (getRandRequestID E) = (data, None).

(** A session whose deliveries are all answered 200. *)
Lemma HandleResharing_all_delivered :
  all_delivered E (sent w ++ [topic_request E request])
    (consume_request request data <$> alloperators E request) = true →
  HandleResharing E c w =
    (Val None,
     printed (posted w (topic_request E request
                          :: (consume_request request data <$> alloperators E request)))
             (session_line E)).
Proof.
  intros Hall. rewrite (HandleResharing_unfold E c request w parsed). simpl.
  apply topic_error_None in topic_created. rewrite topic_created, composed.
  rewrite deliver_all by done. by rewrite posted_posted.
Qed.

(** A session in which a delivery is not answered 200. *)
Lemma HandleResharing_first_failure (l1 : list Z) (operatorID : Z) (l2 : list Z) :
  alloperators E request = (l1 ++ operatorID :: l2)%list →
  all_delivered E (sent w ++ [topic_request E request])
    (consume_request request data <$> l1) = true →
  delivered (http E (sent w ++ topic_request E request
                              :: (consume_request request data <$> l1))
               (consume_request request data operatorID)) = false →
  ∃ e,
    delivery_error operatorID
      (http E (sent w ++ topic_request E request
                         :: (consume_request request data <$> l1))
              (consume_request request data operatorID)) = Some e ∧
    HandleResharing E c w =
      (Val (Some e),
       posted w (topic_request E request
                   :: (consume_request request data <$> (l1 ++ [operatorID])%list))).
Proof.
  intros Hsplit Hall Hfail.
  destruct (delivery_error_Some operatorID _ Hfail) as [e He].
  exists e. split; [done|].
  rewrite (HandleResharing_unfold E c request w parsed). simpl.
  apply topic_error_None in topic_created. rewrite topic_created, composed, Hsplit.
  rewrite deliver_first_failure; simpl.
  - rewrite <- app_assoc. simpl. rewrite He. by rewrite posted_posted.
  - done.
  - by rewrite <- app_assoc.
Qed.

End Sessions.

(** ** Delivery *)

(** C1, as the code has it: when the setup stages succeed, deliveries are
    posted one after the other along the operator list.  If all are answered
    200, every entry of the list gets its delivery and the call returns nil.
    If one is not, the call returns the error of that delivery (the
    transport error, or the error naming the status code and the operator)
    at once: the entries before it and that entry have been attempted, the
    entries after it never are. *)
Theorem C1_delivery_stops_at_first_failure
    (E : Env) (c : Context) (request : ResharingRequest) (data : string) (w : World) :
  parseResharingRequest c = (request, None) →
  delivered (http E (sent w) (topic_request E request)) = true →
  initMsgForResharing E request (getRandRequestID E) = (data, None) →
  (all_delivered E (sent w ++ [topic_request E request])
     (consume_request request data <$> alloperators E request) = true →
   ∃ w', HandleResharing E c w = (Val None, w') ∧
         deliveries (sent w') =
           (deliveries (sent w)
              ++ (consume_request request data <$> alloperators E request))%list) ∧
  (∀ (l1 : list Z) (operatorID : Z) (l2 : list Z),
     alloperators E request = (l1 ++ operatorID :: l2)%list →
     all_delivered E (sent w ++ [topic_request E request])
       (consume_request request data <$> l1) = true →
     delivered (http E (sent w ++ topic_request E request
                                 :: (consume_request request data <$> l1))
                  (consume_request request data operatorID)) = false →
     ∃ e w', HandleResharing E c w = (Val (Some e), w') ∧
             delivery_error operatorID
               (http E (sent w ++ topic_request E request
                                  :: (consume_request request data <$> l1))
                       (consume_request request data operatorID)) = Some e ∧
             deliveries (sent w') =
               (deliveries (sent w)
                  ++ (consume_request request data <$> (l1 ++ [operatorID])))%list).
Proof.
  intros Hparse Htopic Hinit. split.
  - intros Hall. eexists. split.
    + by apply (HandleResharing_all_delivered E c request data w).
    + simpl. unfold deliveries. rewrite filter_app, filter_cons_False by (simpl; done).
      f_equal. apply deliveries_consume.
  - intros l1 operatorID l2 Hsplit Hall Hfail.
    destruct (HandleResharing_first_failure E c request data w Hparse Htopic Hinit
                l1 operatorID l2 Hsplit Hall Hfail) as (e & He & Hrun).
    exists e. eexists. split; [exact Hrun|]. split; [exact He|].
    simpl. unfold deliveries. rewrite filter_app, filter_cons_False by (simpl; done).
    f_equal. apply deliveries_consume.
Qed.

(** With two operators of which the first in line answers 500, one delivery
    is posted, not two: the operator at http://a is never tried. *)
Lemma C1_counterexample :
  parseResharingRequest Stub.two_operators = (Stub.two_session, None) ∧
  alloperators Stub.b_down Stub.two_session = [2; 1] ∧
  nodeAddress Stub.two_session 1 = "http://a" ∧
  ∃ w',
    HandleResharing Stub.b_down Stub.two_operators world0 =
      (Val (Some (errorString
              "failed to send reshare message with code 500 to operator 2")), w') ∧
    url <$> deliveries (sent w') = ["http://b/consume"] ∧
    length (deliveries (sent w')) ≠ length (alloperators Stub.b_down Stub.two_session).
Proof.
  split; [vm_compute; reflexivity|]. split; [vm_compute; reflexivity|].
  split; [vm_compute; reflexivity|].
  eexists. split; [vm_compute; reflexivity|]. split; [vm_compute; reflexivity|].
  vm_compute. discriminate.
Qed.

Lemma C1_witness :
  ∃ e w', HandleResharing Stub.b_down Stub.two_operators world0 = (Val (Some e), w') ∧
          delivery_error 2
            (http Stub.b_down
               (sent world0 ++ topic_request Stub.b_down Stub.two_session
                  :: (consume_request Stub.two_session Stub.payload <$> []))
               (consume_request Stub.two_session Stub.payload 2)) = Some e ∧
          deliveries (sent w') =
            (deliveries (sent world0)
               ++ (consume_request Stub.two_session Stub.payload <$> ([] ++ [2])))%list.
Proof.
  refine (proj2 (C1_delivery_stops_at_first_failure Stub.b_down Stub.two_operators
                   Stub.two_session Stub.payload world0 _ _ _) [] 2 [1] _ _ _);
    vm_compute; reflexivity.
Defined.

(** C6, as the code has it: when the setup stages succeed, the line with the
    session identifier is printed if every delivery is answered 200; when a
    delivery is not, the call returns the error of that one delivery and
    prints nothing, so that the caller is told neither the session
    identifier nor any list of failures. *)
Theorem C6_session_id_printed_only_after_full_delivery
    (E : Env) (c : Context) (request : ResharingRequest) (data : string) (w : World) :
  parseResharingRequest c = (request, None) →
  delivered (http E (sent w) (topic_request E request)) = true →
  initMsgForResharing E request (getRandRequestID E) = (data, None) →
  (all_delivered E (sent w ++ [topic_request E request])
     (consume_request request data <$> alloperators E request) = true →
   ∃ w', HandleResharing E c w = (Val None, w') ∧
         stdout w' = (stdout w ++ [session_line E])%list) ∧
  (∀ (l1 : list Z) (operatorID : Z) (l2 : list Z),
     alloperators E request = (l1 ++ operatorID :: l2)%list →
     all_delivered E (sent w ++ [topic_request E request])
       (consume_request request data <$> l1) = true →
     delivered (http E (sent w ++ topic_request E request
                                 :: (consume_request request data <$> l1))
                  (consume_request request data operatorID)) = false →
     ∃ e w', HandleResharing E c w = (Val (Some e), w') ∧
             delivery_error operatorID
               (http E (sent w ++ topic_request E request
                                  :: (consume_request request data <$> l1))
                       (consume_request request data operatorID)) = Some e ∧
             stdout w' = stdout w).
Proof.
  intros Hparse Htopic Hinit. split.
  - intros Hall. eexists.
    split; [by apply (HandleResharing_all_delivered E c request data w)|].
    reflexivity.
  - intros l1 operatorID l2 Hsplit Hall Hfail.
    destruct (HandleResharing_first_failure E c request data w Hparse Htopic Hinit
                l1 operatorID l2 Hsplit Hall Hfail) as (e & He & Hrun).
    exists e. eexists. split; [exact Hrun|]. split; [exact He|reflexivity].
Qed.

(** In the scenario of the specification with the operator at http://b
    answering 500, setup succeeds and yet nothing is printed; the error
    returned names one operator and no session. *)
Lemma C6_counterexample :
  parseResharingRequest Stub.scenario = (Stub.session, None) ∧
  delivered (http Stub.b_down [] (topic_request Stub.b_down Stub.session)) = true ∧
  initMsgForResharing Stub.b_down Stub.session (getRandRequestID Stub.b_down)
    = (Stub.payload, None) ∧
  ∃ w',
    HandleResharing Stub.b_down Stub.scenario world0 =
      (Val (Some (errorString
              "failed to send reshare message with code 500 to operator 2")), w') ∧
    stdout w' = [].
Proof.
  split; [vm_compute; reflexivity|]. split; [vm_compute; reflexivity|].
  split; [vm_compute; reflexivity|].
  eexists. split; vm_compute; reflexivity.
Qed.

Lemma C6_witness :
  ∃ e w', HandleResharing Stub.b_down Stub.scenario world0 = (Val (Some e), w') ∧
          delivery_error 2
            (http Stub.b_down
               ([] ++ topic_request Stub.b_down Stub.session
                   :: (consume_request Stub.session Stub.payload <$> []))
               (consume_request Stub.session Stub.payload 2)) = Some e ∧
          stdout w' = stdout world0.
Proof.
  refine (proj2 (C6_session_id_printed_only_after_full_delivery Stub.b_down
                   Stub.scenario Stub.session Stub.payload world0 _ _ _)
            [] 2 [1; 3; 1] _ _ _);
    vm_compute; reflexivity.
Defined.

Lemma C4_witness :
  ∃ r w' rest,
    HandleResharing Stub.all_down Stub.scenario world0 = (Val r, w') ∧
    sent w' = (sent world0 ++ topic_request Stub.all_down Stub.session :: rest)%list ∧
    messenger_calls (topic_request Stub.all_down Stub.session :: rest)
      = [topic_request Stub.all_down Stub.session] ∧
    (delivered (http Stub.all_down (sent world0)
                  (topic_request Stub.all_down Stub.session)) = false ∨
     is_Some (snd (initMsgForResharing Stub.all_down Stub.session
                     (getRandRequestID Stub.all_down))) →
     is_Some r ∧ rest = []).
Proof.
  apply (C4_fatal_setup_failure_precedes_delivery Stub.all_down Stub.scenario
           Stub.session world0).
  vm_compute; reflexivity.
Defined.

(** ** The validator key *)

Lemma parse_keeps_key c request err :
  parseResharingRequest c = (request, err) →
  ValidatorPK request = flag_validator_pk c.
Proof.
  unfold parseResharingRequest.
  destruct (parse_operators (flag_operator c) ∅) as [ops [e|]].
  - by intros [= <- _].
  - destruct (parse_operators (flag_old_operator c) ∅) as [old e']. by intros [= <- _].
Qed.

Lemma initMsgForResharing_bad_key E request requestID e :
  snd (Go.hex_DecodeString (ValidatorPK request)) = Some e →
  initMsgForResharing E request requestID = (EmptyString, Some e).
Proof.
  unfold initMsgForResharing.
  destruct (Go.hex_DecodeString (ValidatorPK request)) as [vk err]. simpl.
  by intros ->.
Qed.

Lemma deliveries_snoc_topic E request (rqs : list Request) :
  deliveries (rqs ++ [topic_request E request]) = deliveries rqs.
Proof.
  unfold deliveries. rewrite filter_app, filter_cons_False by (simpl; done).
  by rewrite filter_nil, app_nil_r.
Qed.

(** C2, as the code has it: with a validator key that is not hexadecimal the
    call returns an error and posts no delivery.  The key is decoded when the
    initiation message is composed, after topic creation: when the operator
    flags parse, the topic request is posted first, and the decoding error
    is what the call reports if that request is answered 200. *)
Theorem C2_invalid_key_rejected_after_topic_creation
    (E : Env) (c : Context) (w : World) (e : error) :
  snd (Go.hex_DecodeString (flag_validator_pk c)) = Some e →
  ∃ r w',
    HandleResharing E c w = (Val (Some r), w') ∧
    deliveries (sent w') = deliveries (sent w) ∧
    (∀ request, parseResharingRequest c = (request, None) →
       sent w' = (sent w ++ [topic_request E request])%list ∧
       (delivered (http E (sent w) (topic_request E request)) = true →
        r = wrapError "HandleResharing: failed to generate init message for keygen" e)).
Proof.
  intros Hkey.
  destruct (parseResharingRequest c) as [request [pe|]] eqn:Hparse.
  - rewrite (HandleResharing_parse_error E c request pe w Hparse).
    eexists _, _. split; [done|]. split; [done|]. intros ? [=].
  - rewrite (HandleResharing_unfold E c request w Hparse). simpl.
    rewrite <- (parse_keeps_key c request None Hparse) in Hkey.
    rewrite (initMsgForResharing_bad_key E request _ e Hkey).
    destruct (topic_error _) as [te|] eqn:Htopic.
    + eexists _, _. split; [done|]. simpl. split; [apply deliveries_snoc_topic|].
      intros ? [= <-]. split; [done|]. intros Hok.
      apply topic_error_None in Hok. congruence.
    + eexists _, _. split; [done|]. simpl. split; [apply deliveries_snoc_topic|].
      intros ? [= <-]. done.
Qed.

(** The key zz: the flags parse, the topic request is posted and answered,
    and only then the call fails. *)
Lemma C2_counterexample :
  parseResharingRequest Stub.bad_key = (Stub.bad_key_session, None) ∧
  ∃ w',
    HandleResharing Stub.all_up Stub.bad_key world0 =
      (Val (Some (wrapError "HandleResharing: failed to generate init message for keygen"
                    (libError (InvalidByteError "z")))), w') ∧
    sent w' = [topic_request Stub.all_up Stub.bad_key_session] ∧
    url <$> sent w' = ["http://messenger/topics"] ∧
    sent w' ≠ [].
Proof.
  split; [vm_compute; reflexivity|].
  eexists. split; [vm_compute; reflexivity|]. split; [vm_compute; reflexivity|].
  split; [vm_compute; reflexivity|]. vm_compute. discriminate.
Qed.

Lemma C2_witness :
  ∃ r w',
    HandleResharing Stub.all_up Stub.bad_key world0 = (Val (Some r), w') ∧
    deliveries (sent w') = deliveries (sent world0) ∧
    (∀ request, parseResharingRequest Stub.bad_key = (request, None) →
       sent w' = (sent world0 ++ [topic_request Stub.all_up request])%list ∧
       (delivered (http Stub.all_up (sent world0) (topic_request Stub.all_up request))
          = true →
        r = wrapError "HandleResharing: failed to generate init message for keygen"
              (libError (InvalidByteError "z")))).
Proof.
  apply (C2_invalid_key_rejected_after_topic_creation Stub.all_up Stub.bad_key world0
           (libError (InvalidByteError "z"))).
  vm_compute; reflexivity.
Defined.

(** ** The operator list and the topic *)

Lemma foldl_snoc_fmap {A B} (f : A → B) (l : list A) : ∀ acc : list B,
  foldl (λ (acc : list B) x, (acc ++ [f x])%list) acc l = (acc ++ (f <$> l))%list.
Proof.
  induction l as [|x l IH]; intros acc; simpl.
  - by rewrite app_nil_r.
  - rewrite IH, <- app_assoc. done.
Qed.

Lemma newOperators_range E walk request :
  newOperators E walk request = map_range E walk (Operators request).
Proof.
  unfold newOperators. rewrite (foldl_snoc_fmap id). simpl. by rewrite list_fmap_id.
Qed.

Lemma oldOperators_range E walk request :
  oldOperators E walk request = map_range E walk (OperatorsOld request).
Proof.
  unfold oldOperators. rewrite (foldl_snoc_fmap id). simpl. by rewrite list_fmap_id.
Qed.

Lemma make_topic_Subscribers requestID (l : list Z) :
  Subscribers (make_topic requestID l) =
    (λ operatorID, Go.strconv_Itoa (Go.int_of_uint64 operatorID)) <$> l.
Proof. unfold make_topic. simpl. by rewrite foldl_snoc_fmap. Qed.

Lemma elem_of_keys (m : gmap Z string) (k : Z) :
  k ∈ (map_to_list m).*1 ↔ is_Some (m !! k).
Proof.
  rewrite list_elem_of_fmap. split.
  - intros ([k' a] & -> & Hin). apply elem_of_map_to_list in Hin. eauto.
  - intros [a Ha]. exists (k, a). split; [done|]. by apply elem_of_map_to_list.
Qed.

(** C3, as the code has it: the operator list is the ids of the new map
    followed by the ids of the old map, each map walked in some order; the
    subscriber list of the topic is that list, stringified, and when setup
    succeeds and every delivery is answered 200 one delivery is posted per
    entry of it.  The list holds every id of the union; it is free of
    duplicates only when the two maps share no id, an id of both maps being
    listed, subscribed and delivered to twice. *)
Theorem C3_operator_list_is_new_then_old
    (E : Env) (request : ResharingRequest) (requestID : string) :
  range_ok E →
  TopicName (make_topic requestID (alloperators E request)) = requestID ∧
  Subscribers (make_topic requestID (alloperators E request)) =
    ((λ operatorID, Go.strconv_Itoa (Go.int_of_uint64 operatorID))
       <$> alloperators E request) ∧
  alloperators E request ≡ₚ
    ((map_to_list (Operators request)).*1 ++ (map_to_list (OperatorsOld request)).*1)%list ∧
  (∀ operatorID, operatorID ∈ alloperators E request ↔
     is_Some (Operators request !! operatorID) ∨
     is_Some (OperatorsOld request !! operatorID)) ∧
  (NoDup (alloperators E request) ↔
     ∀ operatorID, is_Some (Operators request !! operatorID) →
                   OperatorsOld request !! operatorID = None) ∧
  (∀ c data w,
     parseResharingRequest c = (request, None) →
     delivered (http E (sent w) (topic_request E request)) = true →
     initMsgForResharing E request (getRandRequestID E) = (data, None) →
     all_delivered E (sent w ++ [topic_request E request])
       (consume_request request data <$> alloperators E request) = true →
     ∃ w', HandleResharing E c w = (Val None, w') ∧
           deliveries (sent w') =
             (deliveries (sent w)
                ++ (consume_request request data <$> alloperators E request))%list).
Proof.
  intros Hrange.
  assert (Hperm : alloperators E request ≡ₚ
    ((map_to_list (Operators request)).*1 ++ (map_to_list (OperatorsOld request)).*1)%list).
  { unfold alloperators. rewrite newOperators_range, oldOperators_range.
    apply Permutation_app; apply Hrange. }
  split; [done|]. split; [apply make_topic_Subscribers|]. split; [done|].
  split; [|split].
  - intros operatorID. rewrite Hperm, elem_of_app, !elem_of_keys. done.
  - rewrite Hperm, NoDup_app. split.
    + intros (_ & Hdisj & _) operatorID Hnew.
      apply elem_of_keys, Hdisj in Hnew. rewrite elem_of_keys in Hnew.
      by apply eq_None_not_Some.
    + intros Hdisj. split; [apply NoDup_fst_map_to_list|].
      split; [|apply NoDup_fst_map_to_list].
      intros operatorID Hnew Hold. apply elem_of_keys in Hnew, Hold.
      rewrite (Hdisj _ Hnew) in Hold. by destruct Hold.
  - intros c data w Hparse Htopic Hinit Hall. eexists.
    split; [by apply (HandleResharing_all_delivered E c request data w)|].
    simpl. unfold deliveries. rewrite filter_app, filter_cons_False by (simpl; done).
    f_equal. apply deliveries_consume.
Qed.

Lemma Stub_range_ok net : range_ok (Stub.env net).
Proof.
  intros walk m. simpl. unfold Stub.walk_order.
  destruct (walk <? 2)%nat; [done|]. apply reverse_Permutation.
Qed.

(** The scenario of the specification: operator 1 is in both maps, so it is
    subscribed twice and the operator at http://a is delivered to twice. *)
Lemma C3_counterexample :
  parseResharingRequest Stub.scenario = (Stub.session, None) ∧
  alloperators Stub.all_up Stub.session = [2; 1; 3; 1] ∧
  Subscribers (make_topic (Go.hex_EncodeToString (getRandRequestID Stub.all_up))
                 (alloperators Stub.all_up Stub.session)) = ["2"; "1"; "3"; "1"] ∧
  ¬ NoDup (Subscribers (make_topic (Go.hex_EncodeToString (getRandRequestID Stub.all_up))
                          (alloperators Stub.all_up Stub.session))) ∧
  ∃ w',
    HandleResharing Stub.all_up Stub.scenario world0 = (Val None, w') ∧
    url <$> deliveries (sent w') =
      ["http://b/consume"; "http://a/consume"; "http://c/consume"; "http://a/consume"].
Proof.
  split; [vm_compute; reflexivity|]. split; [vm_compute; reflexivity|].
  split; [vm_compute; reflexivity|]. split.
  - rewrite make_topic_Subscribers. vm_compute. intros Hnd.
    apply NoDup_cons in Hnd as [_ Hnd]. apply NoDup_cons in Hnd as [Hnotin _].
    apply Hnotin. set_solver.
  - eexists. split; vm_compute; reflexivity.
Qed.

Lemma C3_witness :
  Subscribers (make_topic "s" (alloperators Stub.all_up Stub.session)) =
    ((λ operatorID, Go.strconv_Itoa (Go.int_of_uint64 operatorID))
       <$> alloperators Stub.all_up Stub.session) ∧
  ¬ NoDup (alloperators Stub.all_up Stub.session).
Proof.
  destruct (C3_operator_list_is_new_then_old Stub.all_up Stub.session "s"
              (Stub_range_ok _)) as (_ & Hsubs & _ & _ & Hnodup & _).
  split; [exact Hsubs|].
  intros Hnd. apply Hnodup with (operatorID := 1) in Hnd; [|vm_compute; eauto].
  vm_compute in Hnd. discriminate.
Defined.

(** ** Parsing the operator flags *)

Lemma parse_operators_error_indep (kv : list string) : ∀ m m' : gmap Z string,
  snd (parse_operators kv m) = snd (parse_operators kv m').
Proof.
  induction kv as [|op rest IH]; intros m m'; simpl; [done|].
  destruct (Go.strings_Split _ _) as [|p0 [|p1 [|p2 ps]]]; try done.
  destruct (Go.strconv_Atoi p0) as [opID [e|]]; [done|]. apply IH.
Qed.

Lemma parse_operators_accepted (op : string) (rest : list string) (m : gmap Z string) :
  token_accepted op = true →
  snd (parse_operators (op :: rest) m) = snd (parse_operators rest m).
Proof.
  unfold token_accepted. simpl.
  destruct (Go.strings_Split _ _) as [|p0 [|p1 [|p2 ps]]]; try done.
  rewrite bool_decide_eq_true.
  destruct (Go.strconv_Atoi p0) as [opID [e|]]; simpl; [done|].
  intros _. apply parse_operators_error_indep.
Qed.

Lemma parse_operators_rejected (op : string) (rest : list string) (m : gmap Z string) :
  token_accepted op = false →
  is_Some (snd (parse_operators (op :: rest) m)).
Proof.
  unfold token_accepted. simpl.
  destruct (Go.strings_Split _ _) as [|p0 [|p1 [|p2 ps]]]; simpl; eauto.
  rewrite bool_decide_eq_false.
  destruct (Go.strconv_Atoi p0) as [opID [e|]]; simpl; [eauto|done].
Qed.

Lemma parse_operators_app (a b : list string) : ∀ m : gmap Z string,
  snd (parse_operators (a ++ b) m) =
    match snd (parse_operators a m) with
    | Some e => Some e
    | None => snd (parse_operators b m)
    end.
Proof.
  induction a as [|op rest IH]; intros m; [done|].
  destruct (token_accepted op) eqn:Hop.
  - rewrite <- app_comm_cons, !parse_operators_accepted by done. apply IH.
  - simpl. unfold token_accepted in Hop.
    destruct (Go.strings_Split _ _) as [|p0 [|p1 [|p2 ps]]]; try done.
    apply bool_decide_eq_false in Hop.
    destruct (Go.strconv_Atoi p0) as [opID [e|]]; simpl in *; done.
Qed.

(** The two loops of parseResharingRequest report what one loop over the
    new tokens followed by the old ones would. *)
Lemma parseResharingRequest_error (c : Context) :
  snd (parseResharingRequest c) =
    snd (parse_operators (flag_operator c ++ flag_old_operator c) ∅).
Proof.
  rewrite parse_operators_app. unfold parseResharingRequest.
  destruct (parse_operators (flag_operator c) ∅) as [ops [e|]]; simpl; [done|].
  by destruct (parse_operators (flag_old_operator c) ∅).
Qed.

Lemma parse_operators_skip (pre rest : list string) (m : gmap Z string) :
  Forall (λ op, token_accepted op = true) pre →
  snd (parse_operators (pre ++ rest) m) = snd (parse_operators rest m).
Proof.
  induction 1 as [|op pre Hop _ IH]; [done|].
  by rewrite <- app_comm_cons, parse_operators_accepted.
Qed.

(** A token that is not accepted, wherever it stands, makes parsing fail. *)
Lemma parseResharingRequest_rejects (c : Context) :
  Exists (λ t, token_accepted t = false) (flag_operator c ++ flag_old_operator c) →
  is_Some (snd (parseResharingRequest c)).
Proof.
  rewrite parseResharingRequest_error. generalize (∅ : gmap Z string).
  induction (flag_operator c ++ flag_old_operator c)%list as [|op rest IH];
    intros m Hex; [by apply Exists_nil in Hex|].
  destruct (token_accepted op) eqn:Hop.
  - rewrite parse_operators_accepted by done. apply IH.
    apply Exists_cons in Hex as [Hex|Hex]; [congruence|done].
  - by apply parse_operators_rejected.
Qed.

Lemma is_digit_value (c : ascii) :
  Go.is_digit c = true → 0 ≤ Go.byte_val c - 48 ≤ 9.
Proof. unfold Go.is_digit. rewrite andb_true_iff, !Z.leb_le. lia. Qed.

Lemma digits_value_ge (s : string) : ∀ acc n : Z,
  0 ≤ acc → Go.digits_value acc s = Some n → acc ≤ n.
Proof.
  induction s as [|c s IH]; intros acc n Hacc; simpl.
  - intros [= <-]. lia.
  - destruct (Go.is_digit c) eqn:Hc; [|discriminate].
    apply is_digit_value in Hc. intros Hn. apply IH in Hn; lia.
Qed.

(** A run of digits whose value fits a uint64 is scanned to that value. *)
Lemma scan_digits_value (s : string) : ∀ acc n : Z,
  0 ≤ acc → Go.digits_value acc s = Some n → n < 2 ^ 64 →
  Go.scan_digits acc s = Go.Scanned n.
Proof.
  induction s as [|c s IH]; intros acc n Hacc; simpl.
  - by intros [= <-].
  - destruct (Go.is_digit c) eqn:Hc; [|discriminate].
    apply is_digit_value in Hc. intros Hn Hfit.
    assert (Hpos : 0 ≤ acc * 10 + (Go.byte_val c - 48)) by lia.
    pose proof (digits_value_ge s _ n Hpos Hn) as Hge.
    destruct (2 ^ 64 <=? acc * 10 + (Go.byte_val c - 48)) eqn:Hover.
    + apply Z.leb_le in Hover. lia.
    + apply IH; [lia|done..].
Qed.

(** strconv.Atoi accepts a minus sign before the digits: every negative
    number of the int range is parsed. *)
Lemma Atoi_negative (body : string) (un : Z) :
  body ≠ EmptyString →
  Go.digits_value 0 body = Some un →
  un ≤ 2 ^ 63 →
  Go.strconv_Atoi (String "-" body) = (- un, None).
Proof.
  intros Hne Hdigits Hrange. unfold Go.strconv_Atoi.
  destruct body as [|ch body']; [done|].
  rewrite (scan_digits_value _ 0 un) by (done || lia). simpl negb. simpl andb.
  destruct (2 ^ 63 <? un) eqn:Hlt; [apply Z.ltb_lt in Hlt; lia|done].
Qed.

(** C7, as the code has it: the first token, of the new operators and then
    of the old ones, that is not accepted makes parsing fail.  If, trimmed,
    it does not split at = into exactly two parts, the error names the
    trimmed token; if its id part is rejected by strconv.Atoi, the error is
    that of Atoi, naming the id part. *)
Theorem C7_first_rejected_token_fails_parsing
    (c : Context) (pre : list string) (op : string) (post : list string) :
  (flag_operator c ++ flag_old_operator c = pre ++ op :: post)%list →
  Forall (λ t, token_accepted t = true) pre →
  (length (Go.strings_Split (Go.strings_Trim op " ") "=") ≠ 2%nat →
   snd (parseResharingRequest c) =
     Some (errorString ("operator " +:+ Go.strings_Trim op " "
                        +:+ " is not in the form of key=value"))) ∧
  (∀ p0 p1 e,
     Go.strings_Split (Go.strings_Trim op " ") "=" = [p0; p1] →
     snd (Go.strconv_Atoi p0) = Some e →
     snd (parseResharingRequest c) = Some e ∧
     ∃ kind, e = libError (NumError "Atoi" p0 kind)).
Proof.
  intros Hsplit Hpre.
  rewrite parseResharingRequest_error, Hsplit, parse_operators_skip by done.
  simpl. split.
  - intros Hlen.
    destruct (Go.strings_Split _ _) as [|p0 [|p1 [|p2 ps]]]; simpl in *; done.
  - intros p0 p1 e -> He.
    destruct (Go.strconv_Atoi p0) as [opID err] eqn:Hatoi. simpl in He. subst err.
    split; [done|].
    unfold Go.strconv_Atoi in Hatoi.
    destruct (match p0 with
              | String "-" r => (true, r)
              | String "+" r => (false, r)
              | _ => (false, p0)
              end) as [neg body].
    destruct body as [|ch body'].
    + injection Hatoi as _ <-. eauto.
    + destruct (Go.scan_digits 0 (String ch body')) as [un| |].
      * destruct (negb neg && (2 ^ 63 <=? un)); [injection Hatoi as _ <-; eauto|].
        destruct (neg && (2 ^ 63 <? un)); [injection Hatoi as _ <-; eauto|].
        discriminate.
      * injection Hatoi as _ <-. eauto.
      * injection Hatoi as _ <-. eauto.
Qed.

(** A negative id is accepted: it becomes an operator id by wrap-around. *)
Lemma C7_counterexample :
  Go.strings_Split (Go.strings_Trim "-1=http://a" " ") "=" = ["-1"; "http://a"] ∧
  Go.strconv_Atoi "-1" = (-1, None) ∧
  parseResharingRequest Stub.negative_id =
    ({| Operators := <[18446744073709551615 := "http://a"]> ∅; Threshold := 1;
        ValidatorPK := "ab12"; OperatorsOld := ∅ |}, None) ∧
  snd (parseResharingRequest Stub.negative_id) = None.
Proof. repeat split; vm_compute; reflexivity. Qed.

Lemma C7_witness :
  snd (parseResharingRequest Stub.no_address) =
    Some (errorString ("operator " +:+ Go.strings_Trim " 2 " " "
                       +:+ " is not in the form of key=value")).
Proof.
  apply (proj1 (C7_first_rejected_token_fails_parsing Stub.no_address
                  ["1=http://a"] " 2 " ["x=http://c"] eq_refl
                  ltac:(repeat constructor))).
  vm_compute. discriminate.
Defined.

(** ** Composing the initiation message *)

Lemma initMsgForResharing_composed E request requestID :
  initMsgForResharing E request requestID =
    match Go.hex_DecodeString (ValidatorPK request) with
    | (_, Some e) => (EmptyString, Some e)
    | (vk, None) => SSVMessage_Encode E (outer_envelope E request requestID vk)
    end.
Proof.
  unfold initMsgForResharing, outer_envelope.
  destruct (Go.hex_DecodeString (ValidatorPK request)) as [vk [e|]]; [done|].
  destruct (Reshare_Encode E _) as [reshareBytes err1]. simpl.
  by destruct (SignedMessage_Encode E _) as [byts err2].
Qed.

(** The errors of the two inner encoders never reach the result. *)
Lemma initMsgForResharing_silenced E request requestID :
  initMsgForResharing (silenced E) request requestID =
    initMsgForResharing E request requestID.
Proof. by rewrite !initMsgForResharing_composed. Qed.

(** Nor do they reach a run of HandleResharing: with the two errors taken
    away, every command gives the same result in the same world. *)
Lemma HandleResharing_silenced E c w :
  HandleResharing (silenced E) c w = HandleResharing E c w.
Proof.
  destruct (parseResharingRequest c) as [request [pe|]] eqn:Hparse.
  - by rewrite !(HandleResharing_parse_error _ c request pe w Hparse).
  - rewrite !(HandleResharing_unfold _ c request w Hparse).
    change (getRandRequestID (silenced E)) with (getRandRequestID E).
    by rewrite initMsgForResharing_silenced.
Qed.

(** C8, as the code has it: an error of composing the initiation message
    makes the call fail with that error, wrapped, after the topic request and
    before any delivery.  Such an error comes from decoding the validator
    key or from encoding the outer transport envelope. *)
Theorem C8_composition_error_aborts_before_delivery
    (E : Env) (c : Context) (request : ResharingRequest) (w : World) (e : error) :
  parseResharingRequest c = (request, None) →
  delivered (http E (sent w) (topic_request E request)) = true →
  snd (initMsgForResharing E request (getRandRequestID E)) = Some e →
  HandleResharing E c w =
    (Val (Some (wrapError "HandleResharing: failed to generate init message for keygen" e)),
     posted w [topic_request E request]) ∧
  deliveries (sent (posted w [topic_request E request])) = deliveries (sent w) ∧
  (snd (Go.hex_DecodeString (ValidatorPK request)) = Some e ∨
   ∃ vk, Go.hex_DecodeString (ValidatorPK request) = (vk, None) ∧
         snd (SSVMessage_Encode E
                (outer_envelope E request (getRandRequestID E) vk)) = Some e).
Proof.
  intros Hparse Htopic Hinit. split; [|split].
  - rewrite (HandleResharing_unfold E c request w Hparse). simpl.
    apply topic_error_None in Htopic. rewrite Htopic.
    destruct (initMsgForResharing E request _) as [data err]. simpl in Hinit.
    by subst err.
  - apply deliveries_snoc_topic.
  - rewrite initMsgForResharing_composed in Hinit.
    destruct (Go.hex_DecodeString (ValidatorPK request)) as [vk [e'|]]; simpl in *.
    + left. congruence.
    + right. by exists vk.
Qed.

(** With both inner encoders failing, the call succeeds all the same: their
    errors are dropped and the message is delivered to every operator. *)
Lemma C8_counterexample :
  (∀ r, snd (Reshare_Encode Stub.inner_encoders_fail r)
          = Some (foreignError "cannot encode reshare")) ∧
  (∀ m, snd (SignedMessage_Encode Stub.inner_encoders_fail m)
          = Some (foreignError "cannot encode signed message")) ∧
  snd (initMsgForResharing Stub.inner_encoders_fail Stub.session
         (getRandRequestID Stub.inner_encoders_fail)) = None ∧
  ∃ w',
    HandleResharing Stub.inner_encoders_fail Stub.scenario world0 = (Val None, w') ∧
    length (deliveries (sent w')) = 4%nat ∧
    stdout w' = [session_line Stub.inner_encoders_fail].
Proof.
  split; [done|]. split; [done|]. split; [vm_compute; reflexivity|].
  eexists. repeat split; vm_compute; reflexivity.
Qed.

Lemma C8_witness :
  HandleResharing Stub.outer_encoder_fails Stub.scenario world0 =
    (Val (Some (wrapError "HandleResharing: failed to generate init message for keygen"
                  (foreignError "cannot encode ssv message"))),
     posted world0 [topic_request Stub.outer_encoder_fails Stub.session]).
Proof.
  apply (C8_composition_error_aborts_before_delivery Stub.outer_encoder_fails
           Stub.scenario Stub.session world0
           (foreignError "cannot encode ssv message"));
    vm_compute; reflexivity.
Defined.

(** ** Registration *)

Section Registration.

Context (E : Env) (cl : Client) (id addr : string).

Let rq := register_request E cl id addr.

(** One attempt that cannot reach the messenger: the error is recorded and
    logged, and the loop goes on. *)
Lemma register_loop_unreachable n try errors w e :
  http E (sent w) rq = HttpFail e →
  register_loop E cl id addr (S n) try errors w =
    register_loop E cl id addr n (try + 1)
      (errors ++ [errorString ("failed to make request to messenger: " +:+ Error E e)])
      {| sent := sent w ++ [rq]; stdout := stdout w;
         logged := logged w ++ ["Error: " +:+ "failed to make request to messenger: "
                                  +:+ Error E e +:+ Go.LF] |}.
Proof.
  intros Hans. simpl. unfold mbind, IO_bind. rewrite Post_run.
  fold (register_request E cl id addr). fold rq. rewrite Hans. done.
Qed.

(** One attempt answered 200: the loop is left. *)
Lemma register_loop_accepted n try errors w :
  http E (sent w) rq = HttpResponse Go.StatusOK →
  register_loop E cl id addr (S n) try errors w = (Val (try, errors), posted w [rq]).
Proof.
  intros Hans. simpl. unfold mbind, IO_bind. rewrite Post_run.
  fold (register_request E cl id addr). fold rq. rewrite Hans. done.
Qed.

(** One attempt answered with another status: building the error calls the
    Error method of the nil error of the Post. *)
Lemma register_loop_rejected n try errors w code :
  http E (sent w) rq = HttpResponse code →
  code ≠ Go.StatusOK →
  register_loop E cl id addr (S n) try errors w =
    (Panic nil_dereference, posted w [rq]).
Proof.
  intros Hans Hcode. simpl. unfold mbind, IO_bind. rewrite Post_run.
  fold (register_request E cl id addr). fold rq. rewrite Hans. simpl.
  by destruct (decide (code ≠ Go.StatusOK)).
Qed.

(** [k] attempts in a row that cannot reach the messenger. *)
Lemma register_loop_unreachable_prefix (k : nat) : ∀ try errors w,
  all_unreachable E (sent w) (replicate k rq) = true →
  ∃ errs w',
    length errs = k ∧
    sent w' = (sent w ++ replicate k rq)%list ∧
    stdout w' = stdout w ∧
    ∀ n, register_loop E cl id addr (k + n) try errors w =
         register_loop E cl id addr n (try + Z.of_nat k) (errors ++ errs)%list w'.
Proof.
  induction k as [|k IH]; intros try errors w Hall.
  - exists [], w. rewrite !app_nil_r, Z.add_0_r. done.
  - simpl in Hall. destruct (http E (sent w) rq) as [e|code] eqn:Hans; [|done].
    edestruct (IH (try + 1)
                 (errors ++ [errorString ("failed to make request to messenger: "
                                          +:+ Error E e)])%list
                 {| sent := sent w ++ [rq]; stdout := stdout w;
                    logged := logged w ++ ["Error: "
                      +:+ "failed to make request to messenger: "
                      +:+ Error E e +:+ Go.LF] |})
      as (errs & w' & Hlen & Hsent & Hout & Hloop); [exact Hall|].
    exists (errorString ("failed to make request to messenger: " +:+ Error E e) :: errs), w'.
    split; [simpl; by rewrite Hlen|].
    split; [rewrite Hsent; simpl; by rewrite <- app_assoc|].
    split; [done|].
    intros n. change (S k + n)%nat with (S (k + n)).
    rewrite (register_loop_unreachable _ _ _ _ e Hans), Hloop.
    rewrite <- app_assoc. simpl. f_equal. lia.
Qed.

(** Registration succeeds at the first attempt answered 200: after [k] < 3
    attempts that could not reach the messenger, attempt [k + 1] is the last. *)
Lemma RegisterOperatorNode_first_success (k : nat) w :
  (k < 3)%nat →
  all_unreachable E (sent w) (replicate k rq) = true →
  http E (sent w ++ replicate k rq) rq = HttpResponse Go.StatusOK →
  ∃ w', RegisterOperatorNode E cl id addr w = (Val None, w') ∧
        sent w' = (sent w ++ replicate (S k) rq)%list.
Proof.
  intros Hk Hall Hok.
  destruct (register_loop_unreachable_prefix k 1 [] w Hall)
    as (errs & w' & Hlen & Hsent & _ & Hloop).
  unfold RegisterOperatorNode, mbind, IO_bind.
  change (Z.to_nat (3 - 1 + 1)) with 3%nat.
  replace 3%nat with (k + S (2 - k))%nat by lia.
  rewrite Hloop, register_loop_accepted by (by rewrite Hsent).
  destruct (decide (1 + Z.of_nat k > 3)); [lia|].
  eexists. split; [done|]. simpl. rewrite Hsent, <- app_assoc.
  f_equal. by rewrite replicate_cons_app.
Qed.

(** Registration gives up when three attempts in a row cannot reach the
    messenger: the error lists the errors of the three attempts. *)
Lemma RegisterOperatorNode_exhausted w :
  all_unreachable E (sent w) (replicate 3 rq) = true →
  ∃ errs w',
    RegisterOperatorNode E cl id addr w =
      (Val (Some (errorString
         ("failed to register this node even after 3 tries with errors "
          +:+ fmt_errors E errs))), w') ∧
    length errs = 3%nat ∧
    sent w' = (sent w ++ replicate 3 rq)%list.
Proof.
  intros Hall.
  destruct (register_loop_unreachable_prefix 3 1 [] w Hall)
    as (errs & w' & Hlen & Hsent & _ & Hloop).
  exists errs, w'. split; [|done].
  unfold RegisterOperatorNode, mbind, IO_bind.
  change (Z.to_nat (3 - 1 + 1)) with (3 + 0)%nat.
  rewrite Hloop. done.
Qed.

End Registration.

(** C10: in RegisterOperatorNode, an attempt that is answered with a status
    other than 200 evaluates [err.Error()] on the error of the Post, which is
    nil there: the call panics with a nil dereference, at that attempt, and
    records no error for it. *)
Theorem C10_non200_answer_dereferences_nil
    (E : Env) (cl : Client) (id addr : string) (k : nat) (w : World) (code : Z) :
  (k < 3)%nat →
  all_unreachable E (sent w) (replicate k (register_request E cl id addr)) = true →
  http E (sent w ++ replicate k (register_request E cl id addr))
         (register_request E cl id addr) = HttpResponse code →
  code ≠ Go.StatusOK →
  ∃ w', RegisterOperatorNode E cl id addr w = (Panic nil_dereference, w') ∧
        sent w' = (sent w ++ replicate (S k) (register_request E cl id addr))%list.
Proof.
  intros Hk Hall Hans Hcode.
  destruct (register_loop_unreachable_prefix E cl id addr k 1 [] w Hall)
    as (errs & w' & Hlen & Hsent & _ & Hloop).
  unfold RegisterOperatorNode, mbind, IO_bind.
  change (Z.to_nat (3 - 1 + 1)) with 3%nat.
  replace 3%nat with (k + S (2 - k))%nat by lia.
  rewrite Hloop, (register_loop_rejected E cl id addr _ _ _ _ code)
    by (by rewrite ?Hsent).
  eexists. split; [done|]. simpl. rewrite Hsent, <- app_assoc.
  f_equal. by rewrite replicate_cons_app.
Qed.

Lemma C10_witness :
  ∃ w', RegisterOperatorNode Stub.messenger_recovering Stub.messenger "7" "http://me" world0
          = (Panic nil_dereference, w') ∧
        sent w' = (sent world0 ++ replicate 2
                     (register_request Stub.messenger_recovering Stub.messenger
                        "7" "http://me"))%list.
Proof.
  apply (C10_non200_answer_dereferences_nil Stub.messenger_recovering Stub.messenger
           "7" "http://me" 1 world0 503).
  - lia.
  - vm_compute; reflexivity.
  - vm_compute; reflexivity.
  - vm_compute. discriminate.
Defined.

(** C5: against a messenger that answers 500 to every attempt, the loop
    makes one attempt, not three, and the call panics instead of returning
    the aggregated error. *)
Theorem C5_rejected_attempt_ends_registration_in_panic :
  ∃ w', RegisterOperatorNode Stub.messenger_rejects Stub.messenger "7" "http://me" world0
          = (Panic nil_dereference, w') ∧
        length (sent w') = 1%nat ∧
        logged w' = [].
Proof. eexists. repeat split; vm_compute; reflexivity. Qed.

(** The retry loop where it works: two unreachable attempts and a third one
    answered 200. *)
Example RegisterOperatorNode_third_time :
  ∃ w', RegisterOperatorNode Stub.messenger_third_time Stub.messenger "7" "http://me" world0
          = (Val None, w') ∧
        length (sent w') = 3%nat.
Proof. eexists. split; vm_compute; reflexivity. Qed.

(** The retry loop where it works: three unreachable attempts. *)
Example RegisterOperatorNode_all_down :
  ∃ w', RegisterOperatorNode Stub.all_down Stub.messenger "7" "http://me" world0 =
      (Val (Some (errorString
         ("failed to register this node even after 3 tries with errors "
          +:+ "[failed to make request to messenger: connection refused "
          +:+ "failed to make request to messenger: connection refused "
          +:+ "failed to make request to messenger: connection refused]"))), w') ∧
        length (sent w') = 3%nat.
Proof. eexists. split; vm_compute; reflexivity. Qed.

(** ** encoding/hex *)

Lemma hex_byte_roundtrip (c : ascii) :
  Go.fromHexChar (Go.hexdigit (Go.byte_val c / 16)) = Some (Go.byte_val c / 16) ∧
  Go.fromHexChar (Go.hexdigit (Go.byte_val c mod 16)) = Some (Go.byte_val c mod 16) ∧
  Go.byte_of_Z (Go.byte_val c / 16 * 16 + Go.byte_val c mod 16) = c.
Proof. destruct c as [[] [] [] [] [] [] [] []]; vm_compute; done. Qed.

(** Decoding what EncodeToString produced gives the bytes back, with no
    error: the request id in a topic name or URL can be read back. *)
Theorem hex_Decode_Encode (src : string) :
  Go.hex_DecodeString (Go.hex_EncodeToString src) = (src, None).
Proof.
  unfold Go.hex_DecodeString. induction src as [|c rest IH]; [done|].
  destruct (hex_byte_roundtrip c) as (Hhi & Hlo & Hbyte).
  cbn [Go.hex_EncodeToString Go.hex_Decode]. rewrite Hhi, Hlo, IH, Hbyte. done.
Qed.

(** EncodeToString writes two characters per byte, all of them lower-case
    hexadecimal digits. *)
Theorem hex_Encode_shape (src : string) :
  String.length (Go.hex_EncodeToString src) = (2 * String.length src)%nat ∧
  Forall (λ ch, ch ∈ list_ascii_of_string "0123456789abcdef")
         (list_ascii_of_string (Go.hex_EncodeToString src)).
Proof.
  induction src as [|c rest [IHlen IHall]]; [by split|]. split.
  - cbn [Go.hex_EncodeToString String.length]. rewrite IHlen. lia.
  - cbn [Go.hex_EncodeToString list_ascii_of_string].
    apply Forall_cons. split; [|apply Forall_cons; split; [|done]].
    + destruct c as [[] [] [] [] [] [] [] []]; vm_compute; set_solver.
    + destruct c as [[] [] [] [] [] [] [] []]; vm_compute; set_solver.
Qed.

Lemma list_pair_ind {A} (P : list A → Prop) :
  P [] → (∀ x, P [x]) → (∀ x y l, P l → P (x :: y :: l)) → ∀ l, P l.
Proof.
  intros Hnil Hone Hstep l.
  assert (H : P l ∧ ∀ x, P (x :: l)); [|by destruct H].
  induction l as [|y l [IH1 IH2]]; split; auto.
Qed.

Lemma hex_Decode_outcome (l : list ascii) :
  (Forall (λ ch, is_Some (Go.fromHexChar ch)) l →
   (Nat.Even (length l) →
    snd (Go.hex_Decode (string_of_list_ascii l)) = None ∧
    (2 * String.length (fst (Go.hex_Decode (string_of_list_ascii l))))%nat = length l) ∧
   (Nat.Odd (length l) →
    snd (Go.hex_Decode (string_of_list_ascii l)) = Some (libError ErrLength))) ∧
  (∀ pre b post,
     l = (pre ++ b :: post)%list →
     Forall (λ ch, is_Some (Go.fromHexChar ch)) pre →
     Go.fromHexChar b = None →
     snd (Go.hex_Decode (string_of_list_ascii l)) = Some (libError (InvalidByteError b))).
Proof.
  induction l as [|p|p q l [IHok IHbad]] using list_pair_ind.
  - split.
    + intros _. split; [done|]. intros [k Hk]. simpl in Hk. lia.
    + intros [|? ?] ? ? ?; discriminate.
  - split.
    + intros Hall. apply Forall_cons in Hall as [[a Ha] _]. split.
      * intros [k Hk]. simpl in Hk. lia.
      * intros _. simpl. by rewrite Ha.
    + intros pre b post Hsplit Hpre Hb.
      destruct pre as [|x [|y pre]]; simplify_eq/=. by rewrite Hb.
  - split.
    + intros Hall. apply Forall_cons in Hall as [[a Ha] Hall].
      apply Forall_cons in Hall as [[b Hb] Hall].
      destruct (IHok Hall) as [Heven Hodd].
      cbn [string_of_list_ascii Go.hex_Decode]. rewrite Ha, Hb.
      destruct (Go.hex_Decode (string_of_list_ascii l)) as [out err]. simpl in *.
      split.
      * intros [k Hk]. destruct Heven as [-> Hlen]; [exists (k - 1)%nat; lia|].
        split; [done|lia].
      * intros [k Hk]. apply Hodd. exists (k - 1)%nat. lia.
    + intros pre b post Hsplit Hpre Hb.
      cbn [string_of_list_ascii Go.hex_Decode].
      destruct pre as [|x [|y pre]]; simplify_eq/=.
      * by rewrite Hb.
      * apply Forall_cons in Hpre as [[a Ha] _]. by rewrite Ha, Hb.
      * apply Forall_cons in Hpre as [[a Ha] Hpre].
        apply Forall_cons in Hpre as [[a' Ha'] Hpre]. rewrite Ha, Ha'.
        specialize (IHbad pre b post eq_refl Hpre Hb).
        destruct (Go.hex_Decode _) as [out err]. simpl in *. done.
Qed.

(** What hex.DecodeString answers, by the shape of its argument: no error
    and half as many bytes for an even number of hexadecimal digits,
    ErrLength for an odd number of them, and InvalidByteError for the first
    character that is not a hexadecimal digit, whatever follows it. *)
Theorem hex_DecodeString_outcome (s : string) :
  (Forall (λ ch, is_Some (Go.fromHexChar ch)) (list_ascii_of_string s) →
   (Nat.Even (String.length s) →
    snd (Go.hex_DecodeString s) = None ∧
    (2 * String.length (fst (Go.hex_DecodeString s)))%nat = String.length s) ∧
   (Nat.Odd (String.length s) →
    snd (Go.hex_DecodeString s) = Some (libError ErrLength))) ∧
  (∀ pre b post,
     list_ascii_of_string s = (pre ++ b :: post)%list →
     Forall (λ ch, is_Some (Go.fromHexChar ch)) pre →
     Go.fromHexChar b = None →
     snd (Go.hex_DecodeString s) = Some (libError (InvalidByteError b))).
Proof.
  unfold Go.hex_DecodeString.
  assert (Hlen : length (list_ascii_of_string s) = String.length s).
  { induction s as [|c s IH]; simpl; [done|]. by rewrite IH. }
  pose proof (hex_Decode_outcome (list_ascii_of_string s)) as H.
  rewrite string_of_list_ascii_of_string, Hlen in H. exact H.
Qed.

Lemma hex_DecodeString_outcome_witness :
  snd (Go.hex_DecodeString "ab1") = Some (libError ErrLength) ∧
  snd (Go.hex_DecodeString "a?1") = Some (libError (InvalidByteError "?")).
Proof.
  split.
  - apply (proj1 (hex_DecodeString_outcome "ab1")).
    + repeat constructor; vm_compute; eauto.
    + exists 1%nat. reflexivity.
  - apply (proj2 (hex_DecodeString_outcome "a?1") ["a"%char] "?"%char ["1"%char]).
    + reflexivity.
    + repeat constructor; vm_compute; eauto.
    + reflexivity.
Defined.

(** ** strings.Split and strings.Trim *)

Lemma strings_Split_nonempty (s : string) (sep : ascii) :
  ∃ p ps, Go.strings_Split s sep = p :: ps.
Proof.
  destruct s as [|c s]; simpl; [eauto|].
  destruct (Go.ascii_eqb c sep); [eauto|].
  destruct (Go.strings_Split s sep); eauto.
Qed.

(** The pieces Split returns, joined again with the separator, give the
    string back; no piece holds the separator, and there is one piece more
    than there are separators: two pieces exactly when the string holds the
    separator once. *)
Theorem strings_Split_pieces (s : string) (sep : ascii) :
  String.concat (String sep EmptyString) (Go.strings_Split s sep) = s ∧
  Forall (λ piece, sep ∉ list_ascii_of_string piece) (Go.strings_Split s sep) ∧
  length (Go.strings_Split s sep) =
    S (length (filter (λ ch, ch = sep) (list_ascii_of_string s))).
Proof.
  induction s as [|c s (IHjoin & IHfree & IHlen)].
  - simpl. split; [done|]. split; [|done].
    apply Forall_cons. split; [|done]. simpl. by intros ?%elem_of_nil.
  - destruct (strings_Split_nonempty s sep) as (p & ps & Hs).
    cbn [Go.strings_Split list_ascii_of_string]. unfold Go.ascii_eqb.
    rewrite Hs in *. case_bool_decide as Hc.
    + subst c. split; [|split].
      * by rewrite <- IHjoin.
      * apply Forall_cons. split; [|done]. simpl. by intros ?%elem_of_nil.
      * rewrite filter_cons_True by done. simpl in *. by rewrite IHlen.
    + split; [|split].
      * rewrite <- IHjoin. by destruct ps.
      * apply Forall_cons in IHfree as [Hp Hps]. apply Forall_cons. split; [|done].
        simpl. intros [?|?]%elem_of_cons; [congruence|done].
      * rewrite filter_cons_False by done. simpl in *. done.
Qed.

Lemma trim_left_spec (l : list ascii) (cutset : string) :
  ∃ pre, l = (pre ++ Go.trim_left l cutset)%list ∧
         Forall (λ ch, Go.in_cutset ch cutset = true) pre ∧
         ∀ ch, head (Go.trim_left l cutset) = Some ch → Go.in_cutset ch cutset = false.
Proof.
  induction l as [|c l (pre & Hl & Hpre & Hhead)].
  - exists []. repeat split; [done|]. intros ch [=].
  - simpl. destruct (Go.in_cutset c cutset) eqn:Hc.
    + exists (c :: pre). split; [simpl; by rewrite <- Hl|]. split; [|done].
      by apply Forall_cons.
    + exists []. repeat split; [done|]. intros ch [= <-]. done.
Qed.

Lemma list_ascii_of_string_of_list (l : list ascii) :
  list_ascii_of_string (string_of_list_ascii l) = l.
Proof. apply list_ascii_of_string_of_list_ascii. Qed.

Lemma head_rev_last {A} (l : list A) : head (rev l) = last l.
Proof.
  induction l as [|x l IH] using rev_ind; [done|].
  by rewrite rev_unit, last_snoc.
Qed.

(** Trim cuts characters of the cutset off both ends and nothing else: the
    string is what was cut in front, the result and what was cut behind, and
    the result neither starts nor ends with a character of the cutset. *)
Theorem strings_Trim_spec (s cutset : string) :
  ∃ pre post,
    list_ascii_of_string s =
      (pre ++ list_ascii_of_string (Go.strings_Trim s cutset) ++ post)%list ∧
    Forall (λ ch, Go.in_cutset ch cutset = true) pre ∧
    Forall (λ ch, Go.in_cutset ch cutset = true) post ∧
    (∀ ch, head (list_ascii_of_string (Go.strings_Trim s cutset)) = Some ch →
           Go.in_cutset ch cutset = false) ∧
    (∀ ch, last (list_ascii_of_string (Go.strings_Trim s cutset)) = Some ch →
           Go.in_cutset ch cutset = false).
Proof.
  unfold Go.strings_Trim. rewrite list_ascii_of_string_of_list.
  destruct (trim_left_spec (list_ascii_of_string s) cutset) as (pre & Hs & Hpre & Hhead).
  set (l1 := Go.trim_left (list_ascii_of_string s) cutset) in *.
  destruct (trim_left_spec (rev l1) cutset) as (tsop & Hl1 & Htsop & Hlast).
  set (l2 := Go.trim_left (rev l1) cutset) in *.
  assert (Hl1' : l1 = (rev l2 ++ rev tsop)%list).
  { by rewrite <- rev_app_distr, <- Hl1, rev_involutive. }
  exists pre, (rev tsop). split; [by rewrite <- Hl1'|]. split; [done|].
  split; [|split].
  - apply Forall_forall. intros ch Hch. apply list_elem_of_In, in_rev in Hch.
    rewrite Forall_forall in Htsop. by apply Htsop, list_elem_of_In.
  - intros ch Hch. apply Hhead. rewrite Hl1'.
    destruct (rev l2); [discriminate|done].
  - intros ch Hch. apply Hlast. by rewrite <- (rev_involutive l2), head_rev_last.
Qed.

(** ** strconv.Itoa and strconv.Atoi *)

Lemma pretty_N_char_digit (d : N) :
  (d < 10)%N →
  Go.is_digit (pretty_N_char d) = true ∧
  Go.byte_val (pretty_N_char d) - 48 = Z.of_N d.
Proof.
  intros Hd.
  assert (d = 0 ∨ d = 1 ∨ d = 2 ∨ d = 3 ∨ d = 4 ∨ d = 5 ∨ d = 6 ∨ d = 7
          ∨ d = 8 ∨ d = 9)%N as Hcases by lia.
  repeat (destruct Hcases as [->|Hcases]; [by vm_compute|]). by subst.
Qed.

(** The digits stdpp prints for [x], read back by [digits_value]. *)
Lemma digits_value_pretty_N_go (x : N) : ∀ s : string,
  ∃ d : Z, 0 ≤ d ∧ ∀ acc : Z,
    Go.digits_value acc (pretty_N_go x s) =
      Go.digits_value (acc * 10 ^ d + Z.of_N x) s.
Proof.
  induction (N.lt_wf_0 x) as [x _ IH]; intros s.
  destruct (decide (x = 0%N)) as [->|Hx].
  - exists 0. split; [done|]. intros acc. rewrite pretty_N_go_0. f_equal. lia.
  - rewrite pretty_N_go_step by lia.
    destruct (IH (x `div` 10)%N (N.div_lt x 10 ltac:(lia) eq_refl)
                (String (pretty_N_char (x `mod` 10)) s)) as (d & Hd & Hread).
    exists (d + 1). split; [lia|]. intros acc. rewrite Hread.
    destruct (pretty_N_char_digit (x `mod` 10)%N) as [Hdigit Hval];
      [by apply N.mod_lt|].
    cbn [Go.digits_value]. rewrite Hdigit, Hval. f_equal.
    rewrite Z.pow_add_r, Z.pow_1_r by lia.
    pose proof (N.div_mod x 10 ltac:(done)) as Hdm.
    apply (f_equal Z.of_N) in Hdm. rewrite N2Z.inj_add, N2Z.inj_mul in Hdm.
    change (Z.of_N 10) with 10 in Hdm. lia.
Qed.

Lemma pretty_N_go_head (x : N) : ∀ s : string,
  (0 < x)%N →
  ∃ ch rest, pretty_N_go x s = String ch rest ∧ Go.is_digit ch = true.
Proof.
  induction (N.lt_wf_0 x) as [x _ IH]; intros s Hx.
  rewrite pretty_N_go_step by done.
  destruct (decide (x `div` 10 = 0)%N) as [->|Hdiv].
  - rewrite pretty_N_go_0. eexists _, _. split; [done|].
    by apply pretty_N_char_digit, N.mod_lt.
  - apply IH; [by apply N.div_lt|by apply N.neq_0_lt_0].
Qed.

Lemma pretty_positive_digits (p : positive) :
  ∃ ch rest, pretty p = String ch rest ∧ Go.is_digit ch = true ∧
             Go.digits_value 0 (String ch rest) = Some (Z.pos p).
Proof.
  unfold pretty, pretty_positive, pretty, pretty_N.
  destruct (decide (N.pos p = 0%N)) as [|_]; [done|].
  destruct (pretty_N_go_head (N.pos p) EmptyString) as (ch & rest & Heq & Hdigit);
    [done|].
  exists ch, rest. split; [done|]. split; [done|].
  destruct (digits_value_pretty_N_go (N.pos p) EmptyString) as (d & _ & Hread).
  rewrite <- Heq, Hread. simpl. done.
Qed.

Lemma Atoi_unsigned (ch : ascii) (rest : string) (un : Z) :
  Go.is_digit ch = true →
  Go.digits_value 0 (String ch rest) = Some un →
  un < 2 ^ 63 →
  Go.strconv_Atoi (String ch rest) = (un, None).
Proof.
  intros Hdigit Hread Hrange. unfold Go.strconv_Atoi.
  assert (Hsign : match String ch rest with
                  | String "-" r => (true, r)
                  | String "+" r => (false, r)
                  | _ => (false, String ch rest)
                  end = (false, String ch rest)).
  { destruct ch as [[] [] [] [] [] [] [] []]; try done; by vm_compute in Hdigit. }
  rewrite Hsign, (scan_digits_value _ 0 un) by (done || lia). simpl negb. simpl andb.
  destruct (2 ^ 63 <=? un) eqn:Hle; [apply Z.leb_le in Hle; lia|done].
Qed.

(** What Itoa prints, Atoi reads back: for every int,
    Atoi(Itoa(n)) is n, with no error. *)
Theorem Atoi_Itoa (n : Z) :
  - 2 ^ 63 ≤ n < 2 ^ 63 →
  Go.strconv_Atoi (Go.strconv_Itoa n) = (n, None).
Proof.
  intros Hrange. unfold Go.strconv_Itoa, pretty, pretty_Z.
  destruct n as [|p|p].
  - by vm_compute.
  - destruct (pretty_positive_digits p) as (ch & rest & -> & Hdigit & Hread).
    apply Atoi_unsigned; [done..|lia].
  - destruct (pretty_positive_digits p) as (ch & rest & Hp & _ & Hread).
    change ("-" +:+ pretty p) with (String "-" (pretty p)).
    rewrite (Atoi_negative (pretty p) (Z.pos p)).
    + done.
    + by rewrite Hp.
    + by rewrite Hp.
    + lia.
Qed.

Lemma Atoi_Itoa_witness :
  Go.strconv_Atoi (Go.strconv_Itoa (-9223372036854775808)) = (-9223372036854775808, None).
Proof. apply Atoi_Itoa. lia. Defined.

(** A subscriber of a topic names its operator: the string CreateTopic
    writes for an operator id, read with Atoi and converted to an operator
    id, is that id, also for the ids above 2^63 that are written as negative
    numbers. *)
Theorem subscriber_names_operator (requestID : string) (l : list Z) :
  Forall (λ operatorID, 0 ≤ operatorID < 2 ^ 64) l →
  (λ sub, Go.uint64_of_int (fst (Go.strconv_Atoi sub)))
    <$> Subscribers (make_topic requestID l) = l ∧
  Forall (λ sub, snd (Go.strconv_Atoi sub) = None) (Subscribers (make_topic requestID l)).
Proof.
  intros Hids. rewrite make_topic_Subscribers.
  assert (Hone : ∀ operatorID, 0 ≤ operatorID < 2 ^ 64 →
            Go.strconv_Atoi (Go.strconv_Itoa (Go.int_of_uint64 operatorID))
              = (Go.int_of_uint64 operatorID, None) ∧
            Go.uint64_of_int (Go.int_of_uint64 operatorID) = operatorID).
  { intros operatorID Hid. unfold Go.int_of_uint64, Go.uint64_of_int.
    destruct (operatorID <? 2 ^ 63) eqn:Hlt.
    - apply Z.ltb_lt in Hlt. split; [apply Atoi_Itoa; lia|].
      apply Z.mod_small. lia.
    - apply Z.ltb_ge in Hlt. split; [apply Atoi_Itoa; lia|].
      rewrite <- (Z.mod_unique (operatorID - 2 ^ 64) (2 ^ 64) (-1) operatorID); lia. }
  induction Hids as [|operatorID l Hid _ [IHids IHerr]]; [done|].
  destruct (Hone operatorID Hid) as [Hatoi Hback].
  rewrite !fmap_cons. split.
  - rewrite Hatoi. simpl fst. rewrite Hback. by rewrite IHids.
  - apply Forall_cons. split; [by rewrite Hatoi|done].
Qed.

Lemma subscriber_names_operator_witness :
  (λ sub, Go.uint64_of_int (fst (Go.strconv_Atoi sub)))
    <$> Subscribers (make_topic "s" [1; 18446744073709551615])
  = [1; 18446744073709551615].
Proof.
  apply (subscriber_names_operator "s" [1; 18446744073709551615]).
  repeat constructor; lia.
Defined.

(** ** The operator maps *)

Lemma token_pair_accepted (op : string) :
  token_accepted op = true ↔ is_Some (token_pair op).
Proof.
  unfold token_accepted, token_pair.
  destruct (Go.strings_Split _ _) as [|p0 [|p1 [|p2 ps]]];
    try (split; [discriminate|by intros [? [=]]]).
  rewrite bool_decide_eq_true.
  destruct (Go.strconv_Atoi p0) as [opID [e|]]; simpl.
  - split; [discriminate|by intros [? [=]]].
  - split; eauto.
Qed.

Lemma parse_operators_step (op : string) (rest : list string) (m : gmap Z string)
    (operatorID : Z) (addr : string) :
  token_pair op = Some (operatorID, addr) →
  parse_operators (op :: rest) m = parse_operators rest (<[operatorID := addr]> m).
Proof.
  unfold token_pair. simpl.
  destruct (Go.strings_Split _ _) as [|p0 [|p1 [|p2 ps]]]; try discriminate.
  destruct (Go.strconv_Atoi p0) as [opID [e|]]; [discriminate|].
  by intros [= <- <-].
Qed.

(** Whatever the tokens, every key of a parsed map is an operator id: it
    lies in the range of a uint64. *)
Theorem parse_operators_keys_in_range (kv : list string) : ∀ m : gmap Z string,
  map_Forall (λ operatorID _, 0 ≤ operatorID < 2 ^ 64) m →
  map_Forall (λ operatorID _, 0 ≤ operatorID < 2 ^ 64) (fst (parse_operators kv m)).
Proof.
  induction kv as [|op rest IH]; intros m Hm; [done|].
  destruct (token_pair op) as [[operatorID addr]|] eqn:Hpair.
  - rewrite (parse_operators_step _ _ _ _ _ Hpair). apply IH.
    apply map_Forall_insert_2; [|done].
    unfold token_pair in Hpair.
    destruct (Go.strings_Split _ _) as [|p0 [|p1 [|p2 ps]]]; try discriminate.
    destruct (Go.strconv_Atoi p0) as [opID [e|]]; [discriminate|].
    injection Hpair as <- _. unfold Go.uint64_of_int.
    apply Z.mod_pos_bound. lia.
  - unfold token_pair in Hpair. simpl.
    destruct (Go.strings_Split _ _) as [|p0 [|p1 [|p2 ps]]]; try done.
    destruct (Go.strconv_Atoi p0) as [opID [e|]]; [done|discriminate].
Qed.

Lemma parse_operators_keys_in_range_witness :
  map_Forall (λ operatorID _, 0 ≤ operatorID < 2 ^ 64)
    (fst (parse_operators ["-1=http://a"; "7=http://b"; "x"] ∅)).
Proof.
  apply (parse_operators_keys_in_range ["-1=http://a"; "7=http://b"; "x"] ∅).
  apply map_Forall_empty.
Defined.

(** For tokens that are all accepted, an id gets the address of the last
    token that names it, and an id that no token names keeps what the map
    held. *)
Theorem parse_operators_last_token_wins (kv : list string) : ∀ m : gmap Z string,
  Forall (λ t, token_accepted t = true) kv →
  snd (parse_operators kv m) = None ∧
  (∀ pre op post operatorID addr,
     kv = (pre ++ op :: post)%list →
     token_pair op = Some (operatorID, addr) →
     Forall (λ t, ∀ a, token_pair t ≠ Some (operatorID, a)) post →
     fst (parse_operators kv m) !! operatorID = Some addr) ∧
  (∀ operatorID,
     Forall (λ t, ∀ a, token_pair t ≠ Some (operatorID, a)) kv →
     fst (parse_operators kv m) !! operatorID = m !! operatorID).
Proof.
  induction kv as [|op rest IH]; intros m Hall.
  - split; [done|]. split; [|done]. intros [|? ?] ? ? ? ? ?; discriminate.
  - apply Forall_cons in Hall as [Hop Hrest].
    destruct (proj1 (token_pair_accepted op) Hop) as [[k a] Hpair].
    rewrite (parse_operators_step _ _ _ _ _ Hpair).
    destruct (IH (<[k := a]> m) Hrest) as (IHerr & IHlast & IHnone).
    split; [done|]. split.
    + intros pre op' post operatorID addr Hsplit Hpair' Hpost.
      destruct pre as [|x pre]; simplify_eq/=.
      * rewrite IHnone by done. apply lookup_insert_eq.
      * by apply (IHlast pre op' post).
    + intros operatorID Hnone. apply Forall_cons in Hnone as [Hne Hnone].
      rewrite IHnone by done. apply lookup_insert_ne.
      intros ->. by apply (Hne a).
Qed.

Lemma parse_operators_last_token_wins_witness :
  fst (parse_operators ["1=http://a"; "2=http://b"; " 1=http://c"] ∅) !! 1
    = Some "http://c".
Proof.
  apply (proj1 (proj2 (parse_operators_last_token_wins
           ["1=http://a"; "2=http://b"; " 1=http://c"] ∅
           ltac:(repeat constructor)))
           ["1=http://a"; "2=http://b"] " 1=http://c" [] 1 "http://c").
  - reflexivity.
  - reflexivity.
  - constructor.
Defined.

(** ** More on sessions *)

Lemma deliver_None E request data (l : list Z) : ∀ w w',
  deliver E request data l w = (Val None, w') →
  w' = posted w (consume_request request data <$> l) ∧
  all_delivered E (sent w) (consume_request request data <$> l) = true.
Proof.
  induction l as [|operatorID rest IH]; intros w w'; simpl.
  - intros [= <-]. by rewrite posted_nil.
  - unfold mbind, IO_bind. rewrite sendReshareMsg_run.
    destruct (delivery_error _ _) as [e|] eqn:Herr; [discriminate|].
    intros Hrun. apply IH in Hrun as [-> Hall]. rewrite posted_posted. split; [done|].
    apply delivery_error_None in Herr. by rewrite Herr.
Qed.

(** HandleResharing never panics and never writes to the log, whatever the
    flags and the servers; it prints the line with the session id when it
    returns nil, and nothing when it returns an error. *)
Theorem HandleResharing_never_panics (E : Env) (c : Context) (w : World) :
  ∃ r w',
    HandleResharing E c w = (Val r, w') ∧
    logged w' = logged w ∧
    (is_Some r → stdout w' = stdout w) ∧
    (r = None → stdout w' = (stdout w ++ [session_line E])%list).
Proof.
  destruct (parseResharingRequest c) as [request [pe|]] eqn:Hparse.
  - rewrite (HandleResharing_parse_error E c request pe w Hparse).
    eexists _, _. repeat split; done.
  - rewrite (HandleResharing_unfold E c request w Hparse). simpl.
    destruct (topic_error _) as [e|]; [eexists _, _; repeat split; done|].
    destruct (initMsgForResharing E request _) as [data [e|]];
      [eexists _, _; repeat split; done|].
    destruct (deliver_total E request data (alloperators E request)
                (posted w [topic_request E request])) as ([e|] & k & ->).
    + eexists _, _. repeat split; done.
    + eexists _, _. split; [done|]. split; [done|].
      split; [by intros [? [=]]|done].
Qed.

(** Once the flags have parsed, the requests of a run are the topic request
    followed by deliveries to the first operators of the list, in the order
    of the list: every delivery is a POST of the one composed message, as
    application/json, to the address of its operator followed by /consume. *)
Theorem HandleResharing_requests
    (E : Env) (c : Context) (request : ResharingRequest) (w : World) :
  parseResharingRequest c = (request, None) →
  ∃ r w' k,
    HandleResharing E c w = (Val r, w') ∧
    sent w' =
      (sent w ++ topic_request E request
         :: (consume_request request
               (fst (initMsgForResharing E request (getRandRequestID E)))
             <$> take k (alloperators E request)))%list.
Proof.
  intros Hparse. rewrite (HandleResharing_unfold E c request w Hparse). simpl.
  destruct (topic_error _) as [e|]; [by eexists _, _, 0%nat|].
  destruct (initMsgForResharing E request _) as [data [e|]];
    [by eexists _, _, 0%nat|].
  destruct (deliver_total E request data (alloperators E request)
              (posted w [topic_request E request])) as ([e|] & k & ->).
  - eexists _, _, k. split; [done|]. simpl. by rewrite <- app_assoc.
  - eexists _, _, k. split; [done|]. simpl. by rewrite <- app_assoc.
Qed.

Lemma HandleResharing_requests_witness :
  ∃ r w' k,
    HandleResharing Stub.b_down Stub.scenario world0 = (Val r, w') ∧
    sent w' =
      (sent world0 ++ topic_request Stub.b_down Stub.session
         :: (consume_request Stub.session
               (fst (initMsgForResharing Stub.b_down Stub.session
                       (getRandRequestID Stub.b_down)))
             <$> take k (alloperators Stub.b_down Stub.session)))%list.
Proof.
  apply (HandleResharing_requests Stub.b_down Stub.scenario Stub.session world0).
  vm_compute; reflexivity.
Defined.

(** A nil result means the whole session went through: the flags parsed, the
    topic request and every delivery of the operator list were answered 200,
    and the requests of the run are exactly these. *)
Theorem HandleResharing_nil_means_delivered (E : Env) (c : Context) (w w' : World) :
  HandleResharing E c w = (Val None, w') →
  ∃ request data,
    parseResharingRequest c = (request, None) ∧
    initMsgForResharing E request (getRandRequestID E) = (data, None) ∧
    delivered (http E (sent w) (topic_request E request)) = true ∧
    all_delivered E (sent w ++ [topic_request E request])
      (consume_request request data <$> alloperators E request) = true ∧
    sent w' = (sent w ++ topic_request E request
                 :: (consume_request request data <$> alloperators E request))%list.
Proof.
  destruct (parseResharingRequest c) as [request [pe|]] eqn:Hparse.
  { by rewrite (HandleResharing_parse_error E c request pe w Hparse). }
  rewrite (HandleResharing_unfold E c request w Hparse). simpl.
  destruct (topic_error _) as [e|] eqn:Htopic; [discriminate|].
  apply topic_error_None in Htopic.
  destruct (initMsgForResharing E request _) as [data [e|]] eqn:Hinit; [discriminate|].
  destruct (deliver E request data _ _) as [[[e|]|msg] w2] eqn:Hrun; try discriminate.
  intros [= <-]. apply deliver_None in Hrun as [-> Hall].
  exists request, data. repeat split; try done. simpl. by rewrite <- app_assoc.
Qed.

Lemma HandleResharing_nil_means_delivered_witness :
  ∃ request data,
    parseResharingRequest Stub.scenario = (request, None) ∧
    initMsgForResharing Stub.all_up request (getRandRequestID Stub.all_up) = (data, None) ∧
    delivered (http Stub.all_up (sent world0) (topic_request Stub.all_up request)) = true ∧
    all_delivered Stub.all_up (sent world0 ++ [topic_request Stub.all_up request])
      (consume_request request data <$> alloperators Stub.all_up request) = true ∧
    sent (HandleResharing Stub.all_up Stub.scenario world0).2 =
      (sent world0 ++ topic_request Stub.all_up request
         :: (consume_request request data <$> alloperators Stub.all_up request))%list.
Proof.
  apply (HandleResharing_nil_means_delivered Stub.all_up Stub.scenario world0).
  vm_compute; reflexivity.
Defined.

(** A token that is not accepted, among the new or the old operators, stops
    the command before anything happens: parseResharingRequest returns an
    error, HandleResharing returns that error, wrapped, and no request is
    posted and nothing is printed. *)
Theorem HandleResharing_rejected_token_no_effect (E : Env) (c : Context) (w : World) :
  Exists (λ t, token_accepted t = false) (flag_operator c ++ flag_old_operator c) →
  ∃ e, snd (parseResharingRequest c) = Some e ∧
       HandleResharing E c w =
         (Val (Some (wrapError "HandleResharing: failed to parse resharing request" e)), w).
Proof.
  intros Hex. destruct (parseResharingRequest_rejects c Hex) as [e He].
  destruct (parseResharingRequest c) as [request err] eqn:Hparse. simpl in He. subst err.
  exists e. split; [done|]. by apply (HandleResharing_parse_error E c request).
Qed.

Lemma HandleResharing_rejected_token_no_effect_witness :
  ∃ e, snd (parseResharingRequest Stub.no_address) = Some e ∧
       HandleResharing Stub.all_up Stub.no_address world0 =
         (Val (Some (wrapError "HandleResharing: failed to parse resharing request" e)),
          world0).
Proof.
  apply (HandleResharing_rejected_token_no_effect Stub.all_up Stub.no_address world0).
  apply Exists_cons_tl, Exists_cons_hd. reflexivity.
Defined.

(** An operator of the list is delivered to at an address one of the maps
    holds for it, the one of the new map if there is one: the empty address
    nodeAddress has for unknown ids is never used. *)
Theorem nodeAddress_of_listed_operator
    (E : Env) (request : ResharingRequest) (operatorID : Z) :
  range_ok E →
  operatorID ∈ alloperators E request →
  Operators request !! operatorID = Some (nodeAddress request operatorID) ∨
  (Operators request !! operatorID = None ∧
   OperatorsOld request !! operatorID = Some (nodeAddress request operatorID)).
Proof.
  intros Hrange Hin. unfold alloperators, range_ok in *.
  rewrite newOperators_range, oldOperators_range, elem_of_app, !Hrange,
    !elem_of_keys in Hin.
  unfold nodeAddress. destruct (Operators request !! operatorID) as [a|] eqn:Hnew.
  - by left.
  - right. destruct Hin as [[a Ha]|[a Ha]]; [discriminate|]. by rewrite Ha.
Qed.

Lemma nodeAddress_of_listed_operator_witness :
  Operators Stub.session !! 3 = Some (nodeAddress Stub.session 3) ∨
  (Operators Stub.session !! 3 = None ∧
   OperatorsOld Stub.session !! 3 = Some (nodeAddress Stub.session 3)).
Proof.
  apply (nodeAddress_of_listed_operator Stub.all_up Stub.session 3 (Stub_range_ok _)).
  vm_compute. set_solver.
Defined.

(** With no operator at all the command does not stop: the topic is created
    without subscribers, nothing is delivered, and the session is reported
    as sent. *)
Theorem HandleResharing_no_operators
    (E : Env) (c : Context) (w : World) (data : string) :
  range_ok E →
  flag_operator c = [] →
  flag_old_operator c = [] →
  let request := {| Operators := ∅; Threshold := flag_threshold c;
                    ValidatorPK := flag_validator_pk c; OperatorsOld := ∅ |} in
  delivered (http E (sent w) (topic_request E request)) = true →
  initMsgForResharing E request (getRandRequestID E) = (data, None) →
  Subscribers (make_topic (Go.hex_EncodeToString (getRandRequestID E))
                 (alloperators E request)) = [] ∧
  HandleResharing E c w =
    (Val None, printed (posted w [topic_request E request]) (session_line E)).
Proof.
  intros Hrange Hnew Hold request Htopic Hinit.
  assert (Hparse : parseResharingRequest c = (request, None)).
  { unfold parseResharingRequest. by rewrite Hnew, Hold. }
  assert (Hnone : alloperators E request = []).
  { unfold alloperators. rewrite newOperators_range, oldOperators_range. simpl.
    pose proof (Hrange 0%nat ∅) as Hperm0. pose proof (Hrange 1%nat ∅) as Hperm1.
    rewrite map_to_list_empty in Hperm0, Hperm1.
    apply Permutation_nil_r in Hperm0, Hperm1. by rewrite Hperm0, Hperm1. }
  split; [by rewrite Hnone|].
  rewrite (HandleResharing_all_delivered E c request data w Hparse Htopic Hinit);
    by rewrite Hnone.
Qed.

Lemma HandleResharing_no_operators_witness :
  length (sent (HandleResharing Stub.all_up Stub_nobody world0).2) = 1%nat ∧
  fst (HandleResharing Stub.all_up Stub_nobody world0) = Val None.
Proof.
  destruct (HandleResharing_no_operators Stub.all_up Stub_nobody world0
              "ssv:signed:reshare:" (Stub_range_ok _) eq_refl eq_refl) as [_ Hrun].
  - vm_compute; reflexivity.
  - vm_compute; reflexivity.
  - rewrite Hrun. split; reflexivity.
Defined.

(** ** The threshold *)

Lemma deliver_same_maps E (request request' : ResharingRequest) data (l : list Z) :
  Operators request' = Operators request →
  OperatorsOld request' = OperatorsOld request →
  ∀ w, deliver E request' data l w = deliver E request data l w.
Proof.
  intros Hnew Hold. induction l as [|operatorID rest IH]; intros w; [done|].
  simpl. unfold nodeAddress. rewrite Hnew, Hold. unfold mbind, IO_bind.
  destruct (sendReshareMsg E operatorID _ data w) as [[[e|]|msg] w1]; [done| |done].
  apply IH.
Qed.

(** The threshold is sent as a uint16 and checked against nothing: two
    commands whose thresholds agree modulo 65536, and whose other flags are
    the same, run alike in every world, whatever the thresholds are. *)
Theorem HandleResharing_threshold_modulo (E : Env) (c c' : Context) (w : World) :
  flag_operator c' = flag_operator c →
  flag_old_operator c' = flag_old_operator c →
  flag_validator_pk c' = flag_validator_pk c →
  flag_threshold c' mod 2 ^ 16 = flag_threshold c mod 2 ^ 16 →
  HandleResharing E c' w = HandleResharing E c w.
Proof.
  intros Hnew Hold Hkey Hthreshold.
  assert (Hparse : ∃ request request' err,
            parseResharingRequest c = (request, err) ∧
            parseResharingRequest c' = (request', err) ∧
            Operators request' = Operators request ∧
            OperatorsOld request' = OperatorsOld request ∧
            ValidatorPK request' = ValidatorPK request ∧
            Threshold request = flag_threshold c ∧
            Threshold request' = flag_threshold c').
  { unfold parseResharingRequest. rewrite Hnew, Hold, Hkey.
    destruct (parse_operators (flag_operator c) ∅) as [ops [e|]].
    - eexists _, _, _. repeat split; done.
    - destruct (parse_operators (flag_old_operator c) ∅) as [old err].
      eexists _, _, _. repeat split; done. }
  destruct Hparse as (request & request' & err & Hp & Hp' & Hops & Holds & Hpk & Ht & Ht').
  destruct err as [e|].
  { by rewrite (HandleResharing_parse_error E c request e w Hp),
               (HandleResharing_parse_error E c' request' e w Hp'). }
  rewrite (HandleResharing_unfold E c request w Hp),
          (HandleResharing_unfold E c' request' w Hp').
  assert (Hall : alloperators E request' = alloperators E request).
  { unfold alloperators, newOperators, oldOperators. by rewrite Hops, Holds. }
  assert (Htopic : topic_request E request' = topic_request E request).
  { unfold topic_request. by rewrite Hall. }
  assert (Hinit : initMsgForResharing E request' (getRandRequestID E)
                  = initMsgForResharing E request (getRandRequestID E)).
  { unfold initMsgForResharing, newOperators, oldOperators, Go.uint16_of_int.
    by rewrite Hops, Holds, Hpk, Ht, Ht', Hthreshold. }
  rewrite Htopic, Hinit, Hall. simpl.
  destruct (topic_error _); [done|].
  destruct (initMsgForResharing E request _) as [data [e|]]; [done|].
  by rewrite (deliver_same_maps E request request' data _ Hops Holds).
Qed.

Lemma HandleResharing_threshold_modulo_witness :
  HandleResharing Stub.all_up Stub_huge_threshold world0
  = HandleResharing Stub.all_up Stub.scenario world0.
Proof.
  apply HandleResharing_threshold_modulo; reflexivity.
Defined.

(** ** More on registration *)

Lemma all_unreachable_snoc E (rqs : list Request) (rq : Request) : ∀ history,
  all_unreachable E history (rqs ++ [rq]) =
    all_unreachable E history rqs &&
    match http E (history ++ rqs) rq with HttpFail _ => true | HttpResponse _ => false end.
Proof.
  induction rqs as [|x rqs IH]; intros history; simpl.
  - rewrite app_nil_r. by destruct (http E history rq).
  - destruct (http E history x); [|done]. by rewrite IH, <- app_assoc.
Qed.

Lemma RegisterOperatorNode_rejected
    (E : Env) (cl : Client) (id addr : string) (k : nat) (w : World) (code : Z) :
  (k < 3)%nat →
  all_unreachable E (sent w) (replicate k (register_request E cl id addr)) = true →
  http E (sent w ++ replicate k (register_request E cl id addr))
         (register_request E cl id addr) = HttpResponse code →
  code ≠ Go.StatusOK →
  ∃ w', RegisterOperatorNode E cl id addr w = (Panic nil_dereference, w') ∧
        sent w' = (sent w ++ replicate (S k) (register_request E cl id addr))%list ∧
        stdout w' = stdout w.
Proof.
  intros Hk Hall Hans Hcode.
  destruct (register_loop_unreachable_prefix E cl id addr k 1 [] w Hall)
    as (errs & w' & Hlen & Hsent & Hout & Hloop).
  unfold RegisterOperatorNode, mbind, IO_bind.
  change (Z.to_nat (3 - 1 + 1)) with 3%nat.
  replace 3%nat with (k + S (2 - k))%nat by lia.
  rewrite Hloop, (register_loop_rejected E cl id addr _ _ _ _ code)
    by (by rewrite ?Hsent).
  eexists. split; [done|]. simpl. rewrite Hsent, <- app_assoc. split; [|done].
  f_equal. by rewrite replicate_cons_app.
Qed.

Lemma RegisterOperatorNode_accepted
    (E : Env) (cl : Client) (id addr : string) (k : nat) (w : World) :
  (k < 3)%nat →
  all_unreachable E (sent w) (replicate k (register_request E cl id addr)) = true →
  http E (sent w ++ replicate k (register_request E cl id addr))
         (register_request E cl id addr) = HttpResponse Go.StatusOK →
  ∃ w', RegisterOperatorNode E cl id addr w = (Val None, w') ∧
        sent w' = (sent w ++ replicate (S k) (register_request E cl id addr))%list ∧
        stdout w' = stdout w.
Proof.
  intros Hk Hall Hans.
  destruct (register_loop_unreachable_prefix E cl id addr k 1 [] w Hall)
    as (errs & w' & Hlen & Hsent & Hout & Hloop).
  unfold RegisterOperatorNode, mbind, IO_bind.
  change (Z.to_nat (3 - 1 + 1)) with 3%nat.
  replace 3%nat with (k + S (2 - k))%nat by lia.
  rewrite Hloop, register_loop_accepted by (by rewrite Hsent).
  destruct (decide (1 + Z.of_nat k > 3)); [lia|].
  eexists. split; [done|]. simpl. rewrite Hsent, <- app_assoc. split; [|done].
  f_equal. by rewrite replicate_cons_app.
Qed.

Lemma RegisterOperatorNode_unanswered
    (E : Env) (cl : Client) (id addr : string) (w : World) :
  all_unreachable E (sent w) (replicate 3 (register_request E cl id addr)) = true →
  ∃ e w', RegisterOperatorNode E cl id addr w = (Val (Some e), w') ∧
          sent w' = (sent w ++ replicate 3 (register_request E cl id addr))%list ∧
          stdout w' = stdout w.
Proof.
  intros Hall.
  destruct (register_loop_unreachable_prefix E cl id addr 3 1 [] w Hall)
    as (errs & w' & Hlen & Hsent & Hout & Hloop).
  unfold RegisterOperatorNode, mbind, IO_bind.
  change (Z.to_nat (3 - 1 + 1)) with (3 + 0)%nat.
  rewrite Hloop. simpl. eexists _, w'. done.
Qed.

(** Every registration posts the same request one, two or three times and
    prints nothing.  All attempts but the last could not reach the
    messenger.  The last one decides: answered 200, the call returns nil;
    answered with another status, the call panics; unanswered, it was the
    third and the call returns an error. *)
Theorem RegisterOperatorNode_outcomes
    (E : Env) (cl : Client) (id addr : string) (w : World) :
  ∃ (k : nat) r w',
    RegisterOperatorNode E cl id addr w = (r, w') ∧
    (k < 3)%nat ∧
    sent w' = (sent w ++ replicate (S k) (register_request E cl id addr))%list ∧
    stdout w' = stdout w ∧
    all_unreachable E (sent w) (replicate k (register_request E cl id addr)) = true ∧
    match r with
    | Val None =>
        http E (sent w ++ replicate k (register_request E cl id addr))
               (register_request E cl id addr) = HttpResponse Go.StatusOK
    | Panic msg =>
        msg = nil_dereference ∧
        ∃ code, code ≠ Go.StatusOK ∧
          http E (sent w ++ replicate k (register_request E cl id addr))
                 (register_request E cl id addr) = HttpResponse code
    | Val (Some _) =>
        k = 2%nat ∧
        all_unreachable E (sent w) (replicate 3 (register_request E cl id addr)) = true
    end.
Proof.
  set (rq := register_request E cl id addr).
  assert (Hstep : ∀ k, (k < 3)%nat →
            all_unreachable E (sent w) (replicate k rq) = true →
            (∃ r w', RegisterOperatorNode E cl id addr w = (r, w') ∧
               sent w' = (sent w ++ replicate (S k) rq)%list ∧
               stdout w' = stdout w ∧
               match r with
               | Val None => http E (sent w ++ replicate k rq) rq = HttpResponse Go.StatusOK
               | Panic msg => msg = nil_dereference ∧
                   ∃ code, code ≠ Go.StatusOK ∧
                     http E (sent w ++ replicate k rq) rq = HttpResponse code
               | Val (Some _) => False
               end) ∨
            all_unreachable E (sent w) (replicate (S k) rq) = true).
  { intros k Hk Hall.
    destruct (http E (sent w ++ replicate k rq) rq) as [e|code] eqn:Hans.
    - right. by rewrite replicate_S_end, all_unreachable_snoc, Hall, Hans.
    - left. destruct (decide (code = Go.StatusOK)) as [->|Hcode].
      + destruct (RegisterOperatorNode_accepted E cl id addr k w Hk Hall Hans)
          as (w' & Hrun & Hsent & Hout).
        exists (Val None), w'. done.
      + destruct (RegisterOperatorNode_rejected E cl id addr k w code Hk Hall Hans Hcode)
          as (w' & Hrun & Hsent & Hout).
        exists (Panic nil_dereference), w'. repeat split; try done. eauto. }
  assert (Hfound : ∀ k, (k < 3)%nat →
            all_unreachable E (sent w) (replicate k rq) = true →
            ∀ r w', RegisterOperatorNode E cl id addr w = (r, w') →
            sent w' = (sent w ++ replicate (S k) rq)%list →
            stdout w' = stdout w →
            match r with
            | Val None => http E (sent w ++ replicate k rq) rq = HttpResponse Go.StatusOK
            | Panic msg => msg = nil_dereference ∧
                ∃ code, code ≠ Go.StatusOK ∧
                  http E (sent w ++ replicate k rq) rq = HttpResponse code
            | Val (Some _) => False
            end →
            ∃ (k : nat) r w',
              RegisterOperatorNode E cl id addr w = (r, w') ∧ (k < 3)%nat ∧
              sent w' = (sent w ++ replicate (S k) rq)%list ∧ stdout w' = stdout w ∧
              all_unreachable E (sent w) (replicate k rq) = true ∧
              match r with
              | Val None => http E (sent w ++ replicate k rq) rq = HttpResponse Go.StatusOK
              | Panic msg => msg = nil_dereference ∧
                  ∃ code, code ≠ Go.StatusOK ∧
                    http E (sent w ++ replicate k rq) rq = HttpResponse code
              | Val (Some _) =>
                  k = 2%nat ∧ all_unreachable E (sent w) (replicate 3 rq) = true
              end).
  { intros k Hk Hall r w' Hrun Hsent Hout Hlast. exists k, r, w'.
    repeat split; try done. by destruct r as [[e|]|msg]. }
  destruct (Hstep 0%nat ltac:(lia) eq_refl) as [(r & w' & Hrun & Hsent & Hout & Hlast)|H1].
  { by apply (Hfound 0%nat ltac:(lia) eq_refl r w'). }
  destruct (Hstep 1%nat ltac:(lia) H1) as [(r & w' & Hrun & Hsent & Hout & Hlast)|H2].
  { by apply (Hfound 1%nat ltac:(lia) H1 r w'). }
  destruct (Hstep 2%nat ltac:(lia) H2) as [(r & w' & Hrun & Hsent & Hout & Hlast)|H3].
  { by apply (Hfound 2%nat ltac:(lia) H2 r w'). }
  destruct (RegisterOperatorNode_unanswered E cl id addr w H3)
    as (e & w' & Hrun & Hsent & Hout).
  exists 2%nat, (Val (Some e)), w'. repeat split; try done. lia.
Qed.

Lemma RegisterOperatorNode_first_success_witness :
  ∃ w', RegisterOperatorNode Stub.messenger_third_time Stub.messenger "7" "http://me" world0
          = (Val None, w') ∧
        sent w' = (sent world0 ++ replicate 3
                     (register_request Stub.messenger_third_time Stub.messenger
                        "7" "http://me"))%list.
Proof.
  apply (RegisterOperatorNode_first_success Stub.messenger_third_time Stub.messenger
           "7" "http://me" 2 world0).
  - lia.
  - vm_compute; reflexivity.
  - vm_compute; reflexivity.
Defined.

Lemma RegisterOperatorNode_exhausted_witness :
  ∃ errs w',
    RegisterOperatorNode Stub.all_down Stub.messenger "7" "http://me" world0 =
      (Val (Some (errorString
         ("failed to register this node even after 3 tries with errors "
          +:+ fmt_errors Stub.all_down errs))), w') ∧
    length errs = 3%nat ∧
    sent w' = (sent world0 ++ replicate 3
                 (register_request Stub.all_down Stub.messenger "7" "http://me"))%list.
Proof.
  apply (RegisterOperatorNode_exhausted Stub.all_down Stub.messenger "7" "http://me" world0).
  vm_compute; reflexivity.
Defined.

(** ** Publishing and streaming *)

Lemma publish_run E cl topicName data w :
  publish E cl topicName data w =
    (Val match http E (sent w) (publish_request cl topicName data) with
         | HttpFail err => Some err
         | HttpResponse code =>
             if decide (code ≠ Go.StatusOK)
             then Some (errorString "failed to call publish request to messenger")
             else None
         end,
     posted w [publish_request cl topicName data]).
Proof.
  unfold publish, mbind, IO_bind. rewrite Post_run.
  fold (publish_request cl topicName data).
  destruct (http E _ _) as [e|code]; simpl; [done|].
  unfold mbind, IO_bind, mret, IO_ret; simpl. by case_decide.
Qed.

Lemma stream_run E cl urlparam requestID data w :
  stream E cl urlparam requestID data w =
    (Val match http E (sent w) (stream_request cl urlparam requestID data) with
         | HttpFail err => Some err
         | HttpResponse code =>
             if decide (code ≠ Go.StatusOK)
             then Some (errorString
                    ("failed to call stream " +:+ urlparam +:+ " request to messenger"))
             else None
         end,
     posted w [stream_request cl urlparam requestID data]).
Proof.
  unfold stream, mbind, IO_bind. rewrite Post_run.
  fold (stream_request cl urlparam requestID data).
  destruct (http E _ _) as [e|code]; simpl; [done|].
  unfold mbind, IO_bind, mret, IO_ret; simpl. by case_decide.
Qed.

(** BroadcastDKGMessage: a nil message, or a message whose Message is nil,
    makes the call panic before anything is encoded or posted.  Otherwise,
    when the signed message cannot be encoded, the error is returned and
    nothing is posted; when it can, one request is posted, to the topic
    named by the hexadecimal form of the message identifier, with the bytes
    the transport encoder returned, whatever its error, and the call returns
    nil exactly when that request is answered 200. *)
Theorem BroadcastDKGMessage_outcome
    (E : Env) (cl : Client) (msg : option SignedMessagePtr) (w : World) :
  (msg = None ∨ (∃ m, msg = Some m ∧ Ptr_Message m = None) →
   BroadcastDKGMessage E cl msg w = (Panic nil_dereference, w)) ∧
  (∀ m inner,
     msg = Some m → Ptr_Message m = Some inner →
     (∀ e, snd (SignedMessage_Encode E (SignedMessage_at m inner)) = Some e →
           BroadcastDKGMessage E cl msg w = (Val (Some e), w)) ∧
     (snd (SignedMessage_Encode E (SignedMessage_at m inner)) = None →
      ∃ r,
        BroadcastDKGMessage E cl msg w =
          (Val r, posted w
             [publish_request cl (Go.hex_EncodeToString (Identifier inner))
                (fst (SSVMessage_Encode E
                        {| SSV_MsgType := DKGMsgType;
                           SSV_Data :=
                             fst (SignedMessage_Encode E (SignedMessage_at m inner)) |}))]) ∧
        (r = None ↔
         delivered (http E (sent w)
           (publish_request cl (Go.hex_EncodeToString (Identifier inner))
              (fst (SSVMessage_Encode E
                      {| SSV_MsgType := DKGMsgType;
                         SSV_Data :=
                           fst (SignedMessage_Encode E (SignedMessage_at m inner)) |}))))
         = true))).
Proof.
  split.
  - intros [->|(m & -> & Hnil)]; [done|].
    unfold BroadcastDKGMessage. simpl. unfold mbind, IO_bind. simpl. by rewrite Hnil.
  - intros m inner -> Hinner. unfold BroadcastDKGMessage. simpl.
    unfold mbind, IO_bind. simpl. rewrite Hinner. simpl.
    destruct (SignedMessage_Encode E (SignedMessage_at m inner)) as [msgBytes [e|]]; simpl.
    + split; [by intros ? [= <-]|discriminate].
    + split; [discriminate|]. intros _.
      destruct (SSVMessage_Encode E _) as [ssvMsgBytes err]. simpl.
      rewrite publish_run. eexists. split; [done|].
      destruct (http E _ _) as [e|code]; simpl; [done|].
      rewrite bool_decide_eq_true. case_decide; split; intros; done.
Qed.

Lemma BroadcastDKGMessage_outcome_witness :
  BroadcastDKGMessage Stub.all_up Stub.messenger None world0
    = (Panic nil_dereference, world0) ∧
  BroadcastDKGMessage Stub.all_up Stub.messenger (Some Stub_unsigned) world0
    = (Panic nil_dereference, world0) ∧
  ∃ r,
    BroadcastDKGMessage Stub.all_up Stub.messenger (Some Stub_signed) world0 =
      (Val r, posted world0
         [publish_request Stub.messenger (Go.hex_EncodeToString (Identifier Stub_message))
            (fst (SSVMessage_Encode Stub.all_up
                    {| SSV_MsgType := DKGMsgType;
                       SSV_Data :=
                         fst (SignedMessage_Encode Stub.all_up
                                (SignedMessage_at Stub_signed Stub_message)) |}))]) ∧
    (r = None ↔
     delivered (http Stub.all_up (sent world0)
       (publish_request Stub.messenger (Go.hex_EncodeToString (Identifier Stub_message))
          (fst (SSVMessage_Encode Stub.all_up
                  {| SSV_MsgType := DKGMsgType;
                     SSV_Data :=
                       fst (SignedMessage_Encode Stub.all_up
                              (SignedMessage_at Stub_signed Stub_message)) |}))))
     = true).
Proof.
  split; [|split].
  - apply (proj1 (BroadcastDKGMessage_outcome Stub.all_up Stub.messenger None world0)).
    by left.
  - apply (proj1 (BroadcastDKGMessage_outcome Stub.all_up Stub.messenger
                    (Some Stub_unsigned) world0)).
    right. by exists Stub_unsigned.
  - apply (proj2 (BroadcastDKGMessage_outcome Stub.all_up Stub.messenger
                    (Some Stub_signed) world0) Stub_signed Stub_message eq_refl eq_refl).
    reflexivity.
Defined.

(** StreamDKGBlame: a nil blame, a blame without blame message, or a blame
    message whose Message is nil makes the call panic before anything is
    marshalled or posted.  Otherwise, when the blame cannot be marshalled,
    the error is returned and nothing is posted; when it can, one request is
    posted, to /stream/dkgblame with the hexadecimal form of the identifier
    of the blame message as request id, and the call returns nil exactly
    when it is answered 200. *)
Theorem StreamDKGBlame_outcome
    (E : Env) (marshal : BlameOutput → string * option error)
    (cl : Client) (blame : option BlameOutput) (w : World) :
  (blame = None ∨
   (∃ b, blame = Some b ∧ BlameMessage b = None) ∨
   (∃ b m, blame = Some b ∧ BlameMessage b = Some m ∧ Ptr_Message m = None) →
   StreamDKGBlame E marshal cl blame w = (Panic nil_dereference, w)) ∧
  (∀ b m inner,
     blame = Some b → BlameMessage b = Some m → Ptr_Message m = Some inner →
     (∀ e, snd (marshal b) = Some e →
           StreamDKGBlame E marshal cl blame w = (Val (Some e), w)) ∧
     (snd (marshal b) = None →
      ∃ r,
        StreamDKGBlame E marshal cl blame w =
          (Val r, posted w
             [stream_request cl "dkgblame"
                (Go.hex_EncodeToString (Identifier inner)) (fst (marshal b))]) ∧
        (r = None ↔
         delivered (http E (sent w)
           (stream_request cl "dkgblame"
              (Go.hex_EncodeToString (Identifier inner)) (fst (marshal b)))) = true))).
Proof.
  split.
  - intros [->|[(b & -> & Hnil)|(b & m & -> & Hm & Hnil)]]; [done| |].
    + unfold StreamDKGBlame. simpl. unfold mbind, IO_bind. simpl. by rewrite Hnil.
    + unfold StreamDKGBlame. simpl. unfold mbind, IO_bind. simpl.
      rewrite Hm. simpl. by rewrite Hnil.
  - intros b m inner -> Hm Hinner. unfold StreamDKGBlame. simpl.
    unfold mbind, IO_bind. simpl. rewrite Hm. simpl. rewrite Hinner. simpl.
    destruct (marshal b) as [data [e|]]; simpl.
    + split; [by intros ? [= <-]|discriminate].
    + split; [discriminate|]. intros _.
      rewrite stream_run. eexists. split; [done|].
      destruct (http E _ _) as [e|code]; simpl; [done|].
      rewrite bool_decide_eq_true. case_decide; split; intros; done.
Qed.

Lemma StreamDKGBlame_outcome_witness :
  StreamDKGBlame Stub.all_up Stub_marshal_blame Stub.messenger
    (Some {| Valid := false; BlameMessage := Some Stub_unsigned |}) world0
    = (Panic nil_dereference, world0) ∧
  StreamDKGBlame Stub.all_up (λ _, (EmptyString, Some (foreignError "unsupported value")))
    Stub.messenger (Some {| Valid := false; BlameMessage := Some Stub_signed |}) world0
    = (Val (Some (foreignError "unsupported value")), world0) ∧
  ∃ r,
    StreamDKGBlame Stub.all_up Stub_marshal_blame Stub.messenger
      (Some {| Valid := false; BlameMessage := Some Stub_signed |}) world0 =
      (Val r, posted world0
         [stream_request Stub.messenger "dkgblame"
            (Go.hex_EncodeToString (Identifier Stub_message))
            (fst (Stub_marshal_blame
                    {| Valid := false; BlameMessage := Some Stub_signed |}))]) ∧
    (r = None ↔
     delivered (http Stub.all_up (sent world0)
       (stream_request Stub.messenger "dkgblame"
          (Go.hex_EncodeToString (Identifier Stub_message))
          (fst (Stub_marshal_blame
                  {| Valid := false; BlameMessage := Some Stub_signed |})))) = true).
Proof.
  split; [|split].
  - apply (proj1 (StreamDKGBlame_outcome Stub.all_up Stub_marshal_blame Stub.messenger
                    (Some {| Valid := false; BlameMessage := Some Stub_unsigned |})
                    world0)).
    right. right. eexists _, Stub_unsigned. done.
  - apply (proj1 (proj2 (StreamDKGBlame_outcome Stub.all_up
                    (λ _, (EmptyString, Some (foreignError "unsupported value")))
                    Stub.messenger
                    (Some {| Valid := false; BlameMessage := Some Stub_signed |}) world0)
                   _ Stub_signed Stub_message eq_refl eq_refl eq_refl)).
    reflexivity.
  - apply (proj2 (proj2 (StreamDKGBlame_outcome Stub.all_up Stub_marshal_blame
                    Stub.messenger
                    (Some {| Valid := false; BlameMessage := Some Stub_signed |}) world0)
                   _ Stub_signed Stub_message eq_refl eq_refl eq_refl)).
    reflexivity.
Defined.

(** The request id the loop of StreamDKGOutput ends with, when no output is
    nil and all that carry data carry the same request id. *)
Lemma output_requestID_consistent (rid : string)
    (outputs : list (Z * option SignedOutput)) : ∀ (init : string) (w : World),
  Forall (λ entry, ∃ so, entry.2 = Some so ∧
            (∀ d, Data so = Some d → Output_RequestID d = rid) ∧
            (∀ k, KeySignData so = Some k → KeySignOutput_RequestID k = rid)) outputs →
  ∃ res, output_requestID outputs init w = (Val res, w) ∧
    ((res = init ∧
      Forall (λ entry, ∀ so, entry.2 = Some so →
                Data so = None ∧ KeySignData so = None) outputs) ∨
     (res = Go.hex_EncodeToString rid ∧
      Exists (λ entry, ∃ so, entry.2 = Some so ∧
                (is_Some (Data so) ∨ is_Some (KeySignData so))) outputs)).
Proof.
  induction outputs as [|[key o] rest IH]; intros init w Hall.
  - exists init. split; [done|]. by left.
  - apply Forall_cons in Hall as [(so & Ho & Hdata & Hkeysign) Hrest].
    simpl in Ho. subst o. simpl.
    destruct (Data so) as [d|] eqn:Hd.
    + rewrite (Hdata d eq_refl).
      destruct (IH (Go.hex_EncodeToString rid) w Hrest) as (res & -> & Hres).
      exists res. split; [done|]. right. split.
      * by destruct Hres as [[-> _]|[-> _]].
      * apply Exists_cons_hd. exists so. rewrite Hd. eauto.
    + destruct (KeySignData so) as [k|] eqn:Hk.
      * rewrite (Hkeysign k eq_refl).
        destruct (IH (Go.hex_EncodeToString rid) w Hrest) as (res & -> & Hres).
        exists res. split; [done|]. right. split.
        -- by destruct Hres as [[-> _]|[-> _]].
        -- apply Exists_cons_hd. exists so. rewrite Hk. eauto.
      * destruct (IH init w Hrest) as (res & -> & Hres).
        exists res. split; [done|].
        destruct Hres as [[-> Hnone]|[-> Hsome]].
        -- left. split; [done|]. apply Forall_cons. split; [|done].
           simpl. by intros ? [= <-].
        -- right. split; [done|]. by apply Exists_cons_tl.
Qed.

Section Streaming.

Context (E : Env).
Context (marshal : gmap Z (option SignedOutput) → string * option error).
Context (range : gmap Z (option SignedOutput) → list (Z * option SignedOutput)).

Hypothesis range_valid : ∀ m, range m ≡ₚ map_to_list m.

(** StreamDKGOutput, for outputs none of which is nil and which agree on
    the request id: if one of them carries data or key-sign data, the request
    is posted to /stream/dkgoutput under that request id, in whatever order
    the map is walked. *)
Theorem StreamDKGOutput_consistent_id
    (cl : Client) (output : gmap Z (option SignedOutput)) (rid data : string) (w : World) :
  (∀ key o, output !! key = Some o →
     ∃ so, o = Some so ∧
       (∀ d, Data so = Some d → Output_RequestID d = rid) ∧
       (∀ k, KeySignData so = Some k → KeySignOutput_RequestID k = rid)) →
  (∃ key so, output !! key = Some (Some so) ∧
     (is_Some (Data so) ∨ is_Some (KeySignData so))) →
  marshal output = (data, None) →
  ∃ r, StreamDKGOutput E marshal range cl output w =
         (Val r, posted w [stream_request cl "dkgoutput"
                             (Go.hex_EncodeToString rid) data]).
Proof.
  intros Hall (key & so & Hkey & Hdata) Hmarshal. unfold StreamDKGOutput.
  destruct (output_requestID_consistent rid (range output) EmptyString w)
    as (res & Hrun & Hres).
  { apply Forall_forall. intros [key' o] Hin.
    rewrite range_valid in Hin. apply elem_of_map_to_list in Hin.
    by apply (Hall key'). }
  unfold mbind, IO_bind. rewrite Hrun, Hmarshal. rewrite stream_run.
  destruct Hres as [[-> Hnone]|[-> _]]; [|eauto].
  exfalso. rewrite Forall_forall in Hnone.
  assert (Hin : (key, Some so) ∈ range output).
  { rewrite range_valid. by apply elem_of_map_to_list. }
  destruct (Hnone (key, Some so) Hin so eq_refl) as [Hd Hk].
  rewrite Hd, Hk in Hdata. by destruct Hdata as [[? [=]]|[? [=]]].
Qed.

(** StreamDKGOutput, for outputs none of which carries data or key-sign
    data, and so for an empty map: the request is posted all the same, with
    an empty request id. *)
Theorem StreamDKGOutput_without_data
    (cl : Client) (output : gmap Z (option SignedOutput)) (data : string) (w : World) :
  (∀ key o, output !! key = Some o →
     ∃ so, o = Some so ∧ Data so = None ∧ KeySignData so = None) →
  marshal output = (data, None) →
  ∃ r, StreamDKGOutput E marshal range cl output w =
         (Val r, posted w [stream_request cl "dkgoutput" EmptyString data]).
Proof.
  intros Hall Hmarshal. unfold StreamDKGOutput.
  destruct (output_requestID_consistent EmptyString (range output) EmptyString w)
    as (res & Hrun & Hres).
  { apply Forall_forall. intros [key' o] Hin.
    rewrite range_valid in Hin. apply elem_of_map_to_list in Hin.
    destruct (Hall key' o Hin) as (so & -> & Hd & Hk). exists so.
    rewrite Hd, Hk. repeat split; intros ? [=]. }
  unfold mbind, IO_bind. rewrite Hrun, Hmarshal. rewrite stream_run.
  destruct Hres as [[-> _]|[-> _]]; eauto.
Qed.

(** StreamDKGOutput panics on a map that holds a nil output, before
    anything is marshalled or posted. *)
Theorem StreamDKGOutput_nil_output_panics
    (cl : Client) (output : gmap Z (option SignedOutput)) (key : Z) (w : World) :
  output !! key = Some None →
  StreamDKGOutput E marshal range cl output w = (Panic nil_dereference, w).
Proof.
  intros Hkey. unfold StreamDKGOutput, mbind, IO_bind.
  assert (Hin : (key, None) ∈ range output).
  { rewrite range_valid. by apply elem_of_map_to_list. }
  assert (Hloop : ∀ l init, (key, @None SignedOutput) ∈ l →
            output_requestID l init w = (Panic nil_dereference, w)).
  { induction l as [|[k [so|]] rest IH]; intros init Hl.
    - by apply elem_of_nil in Hl.
    - simpl. apply IH. apply elem_of_cons in Hl as [[=]|Hl]. done.
    - done. }
  by rewrite Hloop.
Qed.

End Streaming.

Lemma Stub_range_outputs_valid m : Stub_range_outputs m ≡ₚ map_to_list m.
Proof. reflexivity. Qed.

Lemma StreamDKGOutput_consistent_id_witness :
  ∃ r, StreamDKGOutput Stub.all_up Stub_marshal_outputs Stub_range_outputs
         Stub.messenger Stub_outputs world0 =
         (Val r, posted world0 [stream_request Stub.messenger "dkgoutput"
                                  (Go.hex_EncodeToString "id") "outputs"]).
Proof.
  apply (StreamDKGOutput_consistent_id Stub.all_up Stub_marshal_outputs
           Stub_range_outputs Stub_range_outputs_valid Stub.messenger Stub_outputs
           "id" "outputs" world0).
  - intros key o Hkey.
    destruct (decide (key = 1)) as [->|?]; [vm_compute in Hkey; simplify_eq; eexists; repeat split; by intros ? [= <-]|].
    destruct (decide (key = 2)) as [->|?]; [vm_compute in Hkey; simplify_eq; eexists; repeat split; by intros ? [=]|].
    destruct (decide (key = 3)) as [->|?]; [vm_compute in Hkey; simplify_eq; eexists; repeat split; by intros ? [= <-]|].
    unfold Stub_outputs in Hkey. by rewrite !lookup_insert_ne, lookup_empty in Hkey.
  - exists 1, {| Data := Some {| Output_RequestID := "id" |}; KeySignData := None |}.
    split; [reflexivity|]. left. eauto.
  - reflexivity.
Defined.

Lemma StreamDKGOutput_without_data_witness :
  ∃ r, StreamDKGOutput Stub.all_up Stub_marshal_outputs Stub_range_outputs
         Stub.messenger ∅ world0 =
         (Val r, posted world0 [stream_request Stub.messenger "dkgoutput"
                                  EmptyString "outputs"]).
Proof.
  apply (StreamDKGOutput_without_data Stub.all_up Stub_marshal_outputs
           Stub_range_outputs Stub_range_outputs_valid Stub.messenger ∅ "outputs" world0).
  - intros key o Hkey. by rewrite lookup_empty in Hkey.
  - reflexivity.
Defined.

Lemma StreamDKGOutput_nil_output_panics_witness :
  StreamDKGOutput Stub.all_up Stub_marshal_outputs Stub_range_outputs
    Stub.messenger (<[4 := None]> Stub_outputs) world0 = (Panic nil_dereference, world0).
Proof.
  apply (StreamDKGOutput_nil_output_panics Stub.all_up Stub_marshal_outputs
           Stub_range_outputs Stub_range_outputs_valid Stub.messenger
           (<[4 := None]> Stub_outputs) 4 world0).
  reflexivity.
Defined.

(** ** The store *)

Section StorageFacts.

Context (E : Env) (SecretKey PublicKey Operator : Type).
Context (sk_ser : SecretKey → string) (sk_de : string → SecretKey * option error).
Context (pk_ser : PublicKey → string) (pk_de : string → PublicKey * option error).
Context (marshal : StoredKeyGenOutput → string * option error).
Context (unmarshal : string → StoredKeyGenOutput → StoredKeyGenOutput * option error).
Context (range_pks : gmap Z PublicKey → list (Z * PublicKey)).
Context (range_hex : gmap Z string → list (Z * string)).
Context (txn_error : nat → option error).

Lemma encode_pks_lookup (l : list (Z * PublicKey)) : ∀ (acc : gmap Z string) (k : Z),
  NoDup l.*1 →
  encode_pks PublicKey pk_ser l acc !! k =
    match (list_to_map l : gmap Z PublicKey) !! k with
    | Some pk => Some (pk_ser pk)
    | None => acc !! k
    end.
Proof.
  induction l as [|[k0 v0] rest IH]; intros acc k Hnd; [done|].
  rewrite fmap_cons in Hnd. apply NoDup_cons in Hnd as [Hnotin Hnd].
  change (encode_pks PublicKey pk_ser ((k0, v0) :: rest) acc)
    with (encode_pks PublicKey pk_ser rest (<[k0 := pk_ser v0]> acc)).
  rewrite IH, list_to_map_cons by done.
  destruct (decide (k = k0)) as [->|Hne].
  - by rewrite !lookup_insert_eq, (not_elem_of_list_to_map_1 rest k0 Hnotin).
  - rewrite (lookup_insert_ne (list_to_map rest)) by done.
    destruct (list_to_map rest !! k); [done|]. by apply lookup_insert_ne.
Qed.

(** Whatever the order of the walk, Encode stores the hexadecimal form of
    each public key under the id of its operator. *)
Lemma encode_pks_fmap (pks : gmap Z PublicKey) :
  range_pks pks ≡ₚ map_to_list pks →
  encode_pks PublicKey pk_ser (range_pks pks) ∅ = pk_ser <$> pks.
Proof.
  intros Hperm. apply map_eq. intros k.
  assert (Hnd : NoDup (range_pks pks).*1).
  { rewrite Hperm. apply NoDup_fst_map_to_list. }
  rewrite encode_pks_lookup by done.
  rewrite (list_to_map_proper _ _ Hnd Hperm), list_to_map_to_list, lookup_fmap.
  by destruct (pks !! k).
Qed.

Lemma decode_pks_lookup (pks : gmap Z PublicKey) (l : list (Z * string)) :
  ∀ acc : gmap Z PublicKey,
  NoDup l.*1 →
  (∀ k h, (k, h) ∈ l → ∃ pk, pks !! k = Some pk ∧ pk_de h = (pk, None)) →
  ∃ res, decode_pks PublicKey pk_de l acc = (res, None) ∧
    ∀ k, res !! k =
      match (list_to_map l : gmap Z string) !! k with
      | Some _ => pks !! k
      | None => acc !! k
      end.
Proof.
  induction l as [|[k0 h0] rest IH]; intros acc Hnd Hall.
  - exists acc. done.
  - rewrite fmap_cons in Hnd. apply NoDup_cons in Hnd as [Hnotin Hnd].
    destruct (Hall k0 h0) as (pk & Hpk & Hde); [by left|].
    cbn [decode_pks]. rewrite Hde.
    destruct (IH (<[k0 := pk]> acc) Hnd) as (res & -> & Hres).
    { intros k h Hin. apply Hall. by right. }
    exists res. split; [done|]. intros k. rewrite Hres, list_to_map_cons.
    destruct (decide (k = k0)) as [->|Hne].
    + by rewrite !lookup_insert_eq, (not_elem_of_list_to_map_1 rest k0 Hnotin).
    + rewrite (lookup_insert_ne (list_to_map rest)) by done.
      destruct (list_to_map rest !! k); [done|]. by apply lookup_insert_ne.
Qed.

Hypothesis range_pks_valid : ∀ m, range_pks m ≡ₚ map_to_list m.
Hypothesis range_hex_valid : ∀ m, range_hex m ≡ₚ map_to_list m.

(** Decode reads back what Encode wrote: if JSON gives back the stored form
    it was given, and the secret key and every public key of the output are
    read back from their hexadecimal forms, then decoding the bytes of an
    encoded output gives that output, whatever the receiver held and in
    whatever order the key maps are walked. *)
Theorem KeyGenOutput_Decode_Encode
    (output : KeyGenOutput SecretKey PublicKey) (bytes : string) (o : StoredKeyGenOutput) :
  KeyGenOutput_Encode SecretKey PublicKey sk_ser pk_ser marshal range_pks output
    = (bytes, None) →
  unmarshal bytes o =
    (KeyGenOutput_stored SecretKey PublicKey sk_ser pk_ser range_pks output, None) →
  sk_de (sk_ser (Share _ _ output)) = (Share _ _ output, None) →
  (∀ k pk, OperatorPubKeys _ _ output !! k = Some pk → pk_de (pk_ser pk) = (pk, None)) →
  KeyGenOutput_Decode SecretKey PublicKey sk_de pk_de unmarshal range_hex o bytes
    = (Some output, None).
Proof.
  intros Hencode Hjson Hshare Hpks. unfold KeyGenOutput_Decode.
  rewrite Hjson. cbn [KeyGenOutput_stored Stored_ValidatorPK Stored_Share
                      Stored_OperatorPubKeys Stored_Threshold].
  rewrite hex_Decode_Encode, Hshare, encode_pks_fmap by done.
  destruct (decode_pks_lookup (OperatorPubKeys _ _ output)
              (range_hex (pk_ser <$> OperatorPubKeys _ _ output)) ∅)
    as (res & -> & Hres).
  { rewrite range_hex_valid. apply NoDup_fst_map_to_list. }
  { intros k h Hin. rewrite range_hex_valid in Hin.
    apply elem_of_map_to_list in Hin. rewrite lookup_fmap in Hin.
    destruct (OperatorPubKeys _ _ output !! k) as [pk|] eqn:Hk; [|done].
    injection Hin as <-. exists pk. split; [done|]. by apply (Hpks k). }
  assert (Hsame : res = OperatorPubKeys _ _ output).
  { apply map_eq. intros k. rewrite Hres.
    assert (Hnd : NoDup (range_hex (pk_ser <$> OperatorPubKeys _ _ output)).*1).
    { rewrite range_hex_valid. apply NoDup_fst_map_to_list. }
    rewrite (list_to_map_proper _ _ Hnd (range_hex_valid _)), list_to_map_to_list,
      lookup_fmap.
    by destruct (OperatorPubKeys _ _ output !! k). }
  rewrite Hsame. by destruct output.
Qed.

(** A saved output can be got back under its validator key: after a save
    that returned nil, and if the store can be read, GetKeyGenOutput of the
    validator key of the output returns that output, under the conditions of
    [KeyGenOutput_Decode_Encode]; reading leaves the store as it is. *)
Theorem GetKeyGenOutput_after_Save
    (s s' : Store) (output : KeyGenOutput SecretKey PublicKey) :
  SaveKeyGenOutput E SecretKey PublicKey sk_ser pk_ser marshal range_pks txn_error
    s output = (None, s') →
  txn_error (txns s') = None →
  unmarshal (fst (marshal
               (KeyGenOutput_stored SecretKey PublicKey sk_ser pk_ser range_pks output)))
            StoredKeyGenOutput_zero =
    (KeyGenOutput_stored SecretKey PublicKey sk_ser pk_ser range_pks output, None) →
  sk_de (sk_ser (Share _ _ output)) = (Share _ _ output, None) →
  (∀ k pk, OperatorPubKeys _ _ output !! k = Some pk → pk_de (pk_ser pk) = (pk, None)) →
  ∃ s'',
    GetKeyGenOutput E SecretKey PublicKey sk_de pk_de unmarshal range_hex txn_error
      s' (KeyGenOutput_ValidatorPK _ _ output) = ((Some output, None), s'') ∧
    db s'' = db s'.
Proof.
  intros Hsave Hread Hjson Hshare Hpks.
  unfold SaveKeyGenOutput in Hsave.
  destruct (KeyGenOutput_Encode _ _ _ _ _ _ output) as [value [e|]] eqn:Hencode;
    [discriminate|].
  assert (Hvalue : value = fst (marshal
            (KeyGenOutput_stored SecretKey PublicKey sk_ser pk_ser range_pks output))).
  { unfold KeyGenOutput_Encode in Hencode. by rewrite Hencode. }
  unfold db_Update in Hsave.
  destruct (txn_error (txns s)) as [e|]; [discriminate|]. injection Hsave as <-.
  unfold GetKeyGenOutput, db_View. simpl in *. rewrite Hread, lookup_insert_eq.
  rewrite (KeyGenOutput_Decode_Encode output value StoredKeyGenOutput_zero);
    try done; [by eexists|by rewrite Hvalue].
Qed.

(** A save writes under the validator key of the output and nowhere else,
    and a save that returns an error leaves every key as it was. *)
Theorem SaveKeyGenOutput_frame
    (s s' : Store) (output : KeyGenOutput SecretKey PublicKey) (err : option error) :
  SaveKeyGenOutput E SecretKey PublicKey sk_ser pk_ser marshal range_pks txn_error
    s output = (err, s') →
  (is_Some err → db s' = db s) ∧
  (∀ key, key ≠ KeyGenOutput_ValidatorPK _ _ output → db s' !! key = db s !! key) ∧
  (err = None →
   db s' !! KeyGenOutput_ValidatorPK _ _ output =
     Some (fst (KeyGenOutput_Encode SecretKey PublicKey sk_ser pk_ser marshal
                  range_pks output))).
Proof.
  unfold SaveKeyGenOutput, db_Update.
  destruct (KeyGenOutput_Encode _ _ _ _ _ _ output) as [value [e|]].
  - intros [= <- <-]. repeat split; done.
  - destruct (txn_error (txns s)) as [e|]; intros [= <- <-]; simpl.
    + repeat split; done.
    + split; [by intros [? [=]]|]. split.
      * intros key Hne. by apply lookup_insert_ne.
      * intros _. apply lookup_insert_eq.
Qed.

(** GetKeyGenOutput never writes, and for a key the store does not hold it
    returns badger's ErrKeyNotFound as it is. *)
Theorem GetKeyGenOutput_reads_only (s : Store) (pk : string) :
  db (snd (GetKeyGenOutput E SecretKey PublicKey sk_de pk_de unmarshal range_hex
             txn_error s pk)) = db s ∧
  (txn_error (txns s) = None → db s !! pk = None →
   fst (GetKeyGenOutput E SecretKey PublicKey sk_de pk_de unmarshal range_hex
          txn_error s pk) = (None, Some ErrKeyNotFound)).
Proof.
  unfold GetKeyGenOutput, db_View. split.
  - destruct (txn_error (txns s)); [done|]. destruct (db s !! pk); [|done].
    destruct (KeyGenOutput_Decode _ _ _ _ _ _ _ _) as [result [e|]]; done.
  - intros -> ->. done.
Qed.

End StorageFacts.

Section OperatorCache.

Context (E : Env) (Operator : Type).
Context (marshal : option Operator → string * option error).
Context (unmarshal : string → Operator * option error).
Context (fetch : list Z → Z → option Operator * option error).
Context (txn_error : nat → option error).

Lemma operator_key_inj (a b : Z) :
  "operator/" +:+ Go.strconv_Itoa a = "operator/" +:+ Go.strconv_Itoa b → a = b.
Proof. intros [= Heq]. by apply (inj pretty). Qed.

(** GetDKGOperator fetches an operator once: for an id the store does not
    hold, the operator is fetched and written under operator/<id>, and no
    other operator's entry is touched; the next call finds it in the store
    and returns the same operator without fetching, provided JSON gives back
    the operator it wrote and the three transactions run. *)
Theorem GetDKGOperator_caches
    (s : Store) (operatorID : Z) (op : Operator) (value : string) :
  db s !! ("operator/" +:+ Go.strconv_Itoa operatorID) = None →
  txn_error (txns s) = None →
  txn_error (S (txns s)) = None →
  txn_error (S (S (txns s))) = None →
  fetch (fetched s) operatorID = (Some op, None) →
  marshal (Some op) = (value, None) →
  unmarshal value = (op, None) →
  ∃ s1 s2,
    GetDKGOperator E Operator marshal unmarshal fetch txn_error s operatorID
      = ((true, Some op, None), s1) ∧
    fetched s1 = (fetched s ++ [operatorID])%list ∧
    db s1 !! ("operator/" +:+ Go.strconv_Itoa operatorID) = Some value ∧
    (∀ other, other ≠ operatorID →
       db s1 !! ("operator/" +:+ Go.strconv_Itoa other)
       = db s !! ("operator/" +:+ Go.strconv_Itoa other)) ∧
    GetDKGOperator E Operator marshal unmarshal fetch txn_error s1 operatorID
      = ((true, Some op, None), s2) ∧
    fetched s2 = fetched s1 ∧
    db s2 = db s1.
Proof.
  intros Hmiss Ht0 Ht1 Ht2 Hfetch Hmarshal Hunmarshal.
  unfold GetDKGOperator at 1. unfold db_View. rewrite Ht0, Hmiss. simpl.
  rewrite Hfetch, Hmarshal. unfold db_Update. simpl. rewrite Ht1.
  eexists _, _. split; [done|]. simpl. split; [done|].
  split; [apply lookup_insert_eq|]. split.
  { intros other Hne. apply lookup_insert_ne. intros Heq.
    by apply operator_key_inj in Heq. }
  unfold GetDKGOperator, db_View. simpl. rewrite Ht2, lookup_insert_eq, Hunmarshal.
  done.
Qed.

(** What is in the store is not fetched again, not even when it cannot be
    read back: a stored value that JSON rejects makes every call fail with
    the JSON error, and the store keeps it. *)
Theorem GetDKGOperator_stored_value_wins
    (s : Store) (operatorID : Z) (val : string) :
  db s !! ("operator/" +:+ Go.strconv_Itoa operatorID) = Some val →
  txn_error (txns s) = None →
  ∃ s1,
    GetDKGOperator E Operator marshal unmarshal fetch txn_error s operatorID =
      (match unmarshal val with
       | (_, Some e) => (false, None, Some e)
       | (operator, None) => (true, Some operator, None)
       end, s1) ∧
    db s1 = db s ∧ fetched s1 = fetched s.
Proof.
  intros Hhit Ht0. unfold GetDKGOperator, db_View. rewrite Ht0, Hhit.
  destruct (unmarshal val) as [operator [e|]]; by eexists.
Qed.

End OperatorCache.

Lemma Stub_range_keys_valid {V} (m : gmap Z V) : map_to_list m ≡ₚ map_to_list m.
Proof. reflexivity. Qed.

Lemma KeyGenOutput_Decode_Encode_witness :
  KeyGenOutput_Decode string string Stub_hex_ok Stub_hex_ok Stub_unmarshal_kgo
    map_to_list StoredKeyGenOutput_zero "kgo" = (Some Stub_output, None).
Proof.
  apply (KeyGenOutput_Decode_Encode string string id Stub_hex_ok id Stub_hex_ok
           Stub_marshal_kgo Stub_unmarshal_kgo map_to_list map_to_list
           Stub_range_keys_valid Stub_range_keys_valid
           Stub_output "kgo" StoredKeyGenOutput_zero).
  - reflexivity.
  - vm_compute; reflexivity.
  - reflexivity.
  - intros k pk _. reflexivity.
Defined.

Lemma GetKeyGenOutput_after_Save_witness :
  ∃ s'',
    GetKeyGenOutput Stub.all_up string string Stub_hex_ok Stub_hex_ok Stub_unmarshal_kgo
      map_to_list Stub_txn_ok
      (SaveKeyGenOutput Stub.all_up string string id id Stub_marshal_kgo map_to_list
         Stub_txn_ok store0 Stub_output).2
      (KeyGenOutput_ValidatorPK _ _ Stub_output) = ((Some Stub_output, None), s'') ∧
    db s'' = db (SaveKeyGenOutput Stub.all_up string string id id Stub_marshal_kgo
                   map_to_list Stub_txn_ok store0 Stub_output).2.
Proof.
  apply (GetKeyGenOutput_after_Save Stub.all_up string string id Stub_hex_ok id
           Stub_hex_ok Stub_marshal_kgo Stub_unmarshal_kgo map_to_list map_to_list
           Stub_txn_ok Stub_range_keys_valid Stub_range_keys_valid store0).
  - reflexivity.
  - reflexivity.
  - vm_compute; reflexivity.
  - reflexivity.
  - intros k pk _. reflexivity.
Defined.

Lemma SaveKeyGenOutput_frame_witness :
  db (SaveKeyGenOutput Stub.all_up string string id id Stub_marshal_kgo map_to_list
        Stub_txn_ok store0 Stub_output).2 !! "validator" = Some "kgo".
Proof.
  apply (proj2 (proj2 (SaveKeyGenOutput_frame Stub.all_up string string id id
                         Stub_marshal_kgo map_to_list Stub_txn_ok store0 _ Stub_output
                         None eq_refl))).
  reflexivity.
Defined.

Lemma GetDKGOperator_caches_witness :
  ∃ s1 s2,
    GetDKGOperator Stub.all_up string Stub_marshal_operator Stub_hex_ok Stub_fetch
      Stub_txn_ok store0 7 = ((true, Some "operator 7", None), s1) ∧
    fetched s1 = (fetched store0 ++ [7])%list ∧
    db s1 !! ("operator/" +:+ Go.strconv_Itoa 7) = Some "operator 7" ∧
    (∀ other, other ≠ 7 →
       db s1 !! ("operator/" +:+ Go.strconv_Itoa other)
       = db store0 !! ("operator/" +:+ Go.strconv_Itoa other)) ∧
    GetDKGOperator Stub.all_up string Stub_marshal_operator Stub_hex_ok Stub_fetch
      Stub_txn_ok s1 7 = ((true, Some "operator 7", None), s2) ∧
    fetched s2 = fetched s1 ∧
    db s2 = db s1.
Proof.
  apply (GetDKGOperator_caches Stub.all_up string Stub_marshal_operator Stub_hex_ok
           Stub_fetch Stub_txn_ok store0 7 "operator 7" "operator 7"); reflexivity.
Defined.

Lemma GetDKGOperator_stored_value_wins_witness :
  ∃ s1,
    GetDKGOperator Stub.all_up string Stub_marshal_operator
      (λ _, (EmptyString, Some (foreignError "invalid character")))
      Stub_fetch Stub_txn_ok
      {| db := <["operator/7" := "{"]> ∅; txns := 0; fetched := [] |} 7 =
      ((false, None, Some (foreignError "invalid character")), s1) ∧
    db s1 = <["operator/7" := "{"]> ∅ ∧ fetched s1 = [].
Proof.
  exact (GetDKGOperator_stored_value_wins Stub.all_up string Stub_marshal_operator
           (λ _, (EmptyString, Some (foreignError "invalid character")))
           Stub_fetch Stub_txn_ok
           {| db := <["operator/7" := "{"]> ∅; txns := 0; fetched := [] |} 7 "{"
           eq_refl eq_refl).
Defined.
